(** * aws-sencloud-monitoring: urban cover statistics of a Sentinel-2 tile

    A shallow embedding of [lambda/osgeo_utils.py], [lambda/file_utils.py]
    and [lambda/lambda_function.py].

    Numbers.  Python [int] is [Z].  Python [float] is modelled by exact
    rationals [Q]: every binary64 value is a rational, and the arithmetic
    below is the exact one, so the rounding error of binary64 operations is
    not part of the model.  Exceptions are values of [exn]; a computation
    that may raise returns [result]. *)

From Stdlib Require Import ZArith QArith Qround Qabs Lqa Lia List Bool.
From Stdlib Require Import String Ascii Permutation.
From stdpp Require Import gmap strings.

Import ListNotations.
Local Open Scope Z_scope.
Local Open Scope Q_scope.

(** ** Python exceptions and results *)

Inductive exn : Type :=
| ZeroDivisionError
| IndexError
| KeyError
| ValueError
| OverflowError
| RuntimeError.

Inductive result (A : Type) : Type :=
| Ok (a : A)
| Raise (e : exn).
Arguments Ok {A} a.
Arguments Raise {A} e.

Definition rbind {A B} (r : result A) (k : A -> result B) : result B :=
  match r with
  | Ok a => k a
  | Raise e => Raise e
  end.

Declare Scope result_scope.
Delimit Scope result_scope with result.
Notation "'let?' x ':=' r 'in' k" :=
  (rbind r (fun x => k))
    (at level 10, x pattern, r at level 100, k at level 200) : result_scope.

(** ** Python numerics *)

Module Py.

(** [x / y] on floats: raises on a zero divisor. *)
Definition div (x y : Q) : result Q :=
  if Qeq_bool y 0 then Raise ZeroDivisionError else Ok (x / y).

(** [min(a, b)] and [max(a, b)]: the first argument unless the second is
    strictly smaller (larger). *)
Definition min (a b : Q) : Q := if Qlt_le_dec b a then b else a.
Definition max (a b : Q) : Q := if Qlt_le_dec a b then b else a.

(** [abs(x)]. *)
Definition abs (x : Q) : Q := Qabs x.

(** [round(x)] with one argument: the nearest integer, ties to even. *)
Definition round (x : Q) : Z :=
  let f := Qfloor x in
  match Qcompare (x - inject_Z f) (1 # 2) with
  | Lt => f
  | Gt => (f + 1)%Z
  | Eq => if Z.even f then f else (f + 1)%Z
  end.

(** [round(x, ndigits)]: the nearest multiple of [10 ** -ndigits], ties
    to even. *)
Definition round_digits (x : Q) (ndigits : Z) : Q :=
  let scale := inject_Z (10 ^ ndigits) in
  inject_Z (round (x * scale)) / scale.

(** [int(x)] on a float: truncation towards zero. *)
Definition int (x : Q) : Z :=
  if Qlt_le_dec x 0 then (- Qfloor (- x))%Z else Qfloor x.

End Py.

(** ** osgeo_utils.py: GdalCommonUtils *)

(** The part of a GDAL dataset the handler looks at.  [GeoTransform] is the
    6-tuple of [GetGeoTransform()]; [NoDataValue] is what band 1 declares
    ([None] when it declares nothing); [Band1] holds the pixels of band 1
    by column and row. *)
Record Dataset : Type := {
  RasterXSize : Z;
  RasterYSize : Z;
  GeoTransform : Q * Q * Q * Q * Q * Q;
  NoDataValue : option Q;
  Band1 : Z -> Z -> Z
}.

(** An envelope as [get_envelope] returns it: [(min_x, min_y, max_x, max_y)]. *)
Definition Envelope : Type := (Q * Q * Q * Q)%type.

Definition get_envelope (dataset : Dataset) : Envelope :=
  let '(c, a, b, f, d, e) := GeoTransform dataset in
  let t := 0%Z in
  let col := 0%Z in
  let row := 0%Z in
  let env_a := (a * inject_Z (col + t) + b * inject_Z (row + t) + c,
                d * inject_Z (col + t) + e * inject_Z (row + t) + f) in
  let col := RasterXSize dataset in
  let row := RasterYSize dataset in
  let env_b := (a * inject_Z (col + t) + b * inject_Z (row + t) + c,
                d * inject_Z (col + t) + e * inject_Z (row + t) + f) in
  let min_x := Py.min (fst env_a) (fst env_b) in
  let min_y := Py.min (snd env_a) (snd env_b) in
  let max_x := Py.max (fst env_a) (fst env_b) in
  let max_y := Py.max (snd env_a) (snd env_b) in
  (min_x, min_y, max_x, max_y).

(** A pixel window as [get_reading_window] returns it:
    [(left, top, right, bottom)]. *)
Definition PixelWindow : Type := (Z * Z * Z * Z)%type.

Definition get_reading_window (dataset : Dataset) (bbox : Envelope)
  : result PixelWindow :=
  let envelope := get_envelope dataset in
  let w := RasterXSize dataset in
  let h := RasterYSize dataset in
  let '(data_ul_x, data_lr_y, data_lr_x, data_ul_y) := envelope in
  (let? res_x := Py.div (Py.abs (data_ul_x - data_lr_x)) (inject_Z w) in
   let? res_y := Py.div (Py.abs (data_ul_y - data_lr_y)) (inject_Z h) in
   let '(ul_x, lr_y, lr_x, ul_y) := bbox in
   let? top := Py.div (data_ul_y - ul_y) res_y in
   let top := Py.round top in
   let? left_ := Py.div (ul_x - data_ul_x) res_x in
   let left_ := Py.round left_ in
   let? bottom := Py.div (data_ul_y - lr_y) res_y in
   let bottom := Py.round bottom in
   let? right_ := Py.div (lr_x - data_ul_x) res_x in
   let right_ := Py.round right_ in
   Ok (left_, top, right_, bottom))%result.

(** ** Python strings and lists *)

Module PyStr.

(** [s[n:]]. *)
Fixpoint drop (n : nat) (s : string) : string :=
  match n, s with
  | O, _ => s
  | S _, EmptyString => EmptyString
  | S n', String _ s' => drop n' s'
  end.

(** [s[i:j]] for [0 <= i <= j]. *)
Definition slice (i j : nat) (s : string) : string :=
  String.substring i (j - i) s.

(** [s.endswith(c)] for a one-character [c]. *)
Fixpoint endswith (c : ascii) (s : string) : bool :=
  match s with
  | EmptyString => false
  | String d EmptyString => Ascii.eqb c d
  | String _ s' => endswith c s'
  end.

(** [s.split(sep)] for a non-empty [sep]: the separators are found from
    the left and do not overlap.  [skip] counts the characters of a
    separator still to be passed over; [cur] is the piece being read. *)
Fixpoint split_go (sep s : string) (skip : nat) (cur : string)
  : list string :=
  match s with
  | EmptyString => [cur]
  | String c s' =>
      match skip with
      | S k => split_go sep s' k cur
      | O =>
          if String.prefix sep s
          then cur :: split_go sep s' (String.length sep - 1) EmptyString
          else split_go sep s' 0 (cur ++ String c EmptyString)
      end
  end.

Definition split (sep s : string) : list string :=
  split_go sep s 0 EmptyString.

(** [s.replace(old, new)] for a non-empty [old]. *)
Fixpoint replace_go (old new s : string) (skip : nat) : string :=
  match s with
  | EmptyString => EmptyString
  | String c s' =>
      match skip with
      | S k => replace_go old new s' k
      | O =>
          if String.prefix old s
          then new ++ replace_go old new s' (String.length old - 1)
          else String c (replace_go old new s' 0)
      end
  end.

Definition replace (old new s : string) : string :=
  replace_go old new s 0.

(** [sep.join(parts)]. *)
Definition join (sep : string) (parts : list string) : string :=
  String.concat sep parts.

(** [os.path.join(a, b)] of [posixpath]. *)
Definition path_join (a b : string) : string :=
  if String.prefix "/" b then b
  else if String.eqb a EmptyString || endswith "/" a then a ++ b
  else a ++ "/" ++ b.

(** [json.dumps(s)] for a string without characters to escape: the
    string between double quotes. *)
Definition json_dumps (s : string) : string :=
  String (ascii_of_nat 34) (s ++ String (ascii_of_nat 34) EmptyString).

End PyStr.

Module PyList.

(** [l[i]]: raises [IndexError] past the end. *)
Definition index {A} (l : list A) (i : nat) : result A :=
  match nth_error l i with
  | Some a => Ok a
  | None => Raise IndexError
  end.

(** [d[k]] on a dict: raises [KeyError] on a missing key. *)
Definition getitem {A} (d : gmap string A) (k : string) : result A :=
  match d !! k with
  | Some a => Ok a
  | None => Raise KeyError
  end.

End PyList.

(** ** STAC items and the object store *)

(** The [land_use] object the handler adds to an item. *)
Record LandUse : Type := {
  urban_pixels : Z;
  valid_urban_pixels : Z;
  urban_cover : Q;
  aoi_extent : list Q
}.

(** A STAC item as the handler reads and writes it: the SNS message of the
    event, and the JSON documents kept in the output folder.  [msg_geometry]
    is the exterior ring of the footprint polygon; [msg_assets] maps an asset
    name to its [href]. *)
Record StacItem : Type := {
  msg_id : string;
  msg_properties : gmap string string;
  msg_geometry : list (Q * Q);
  msg_assets : gmap string string;
  msg_land_use : option LandUse
}.

(** Calls to the S3 client and files written locally, in the order made. *)
Inductive Call : Type :=
| list_objects_v2 (MaxKeys : nat) (Bucket Prefix : string)
| get_object (Bucket Key : string)
| open_w (Filename : string)
| upload_file (Filename Bucket Key : string).

(** The world outside the handler: the objects of S3 by bucket and key, the
    local files, and the trace of calls.  Objects and files hold the item
    their JSON text stands for; [json.dump] and [json.loads] are taken to be
    inverse to each other. *)
Record World : Type := {
  s3_objects : gmap (string * string) StacItem;
  local_files : gmap string StacItem;
  calls : list Call
}.

Definition M (A : Type) : Type := World -> result A * World.

Definition ret {A} (a : A) : M A := fun w => (Ok a, w).

Definition bind {A B} (m : M A) (k : A -> M B) : M B :=
  fun w =>
    match m w with
    | (Ok a, w') => k a w'
    | (Raise e, w') => (Raise e, w')
    end.

Definition lift {A} (r : result A) : M A := fun w => (r, w).

Definition log (c : Call) : M unit :=
  fun w => (Ok tt, {| s3_objects := s3_objects w;
                      local_files := local_files w;
                      calls := calls w ++ [c] |}).

Declare Scope handler_scope.
Delimit Scope handler_scope with handler.
Notation "'let!' x ':=' m 'in' k" :=
  (bind m (fun x => k))
    (at level 10, x pattern, m at level 100, k at level 200) : handler_scope.

(** A Python [for] loop that threads one variable through its body. *)
Fixpoint for_each {A S} (l : list A) (body : A -> S -> M S) (s : S) : M S :=
  match l with
  | [] => ret s
  | a :: l' => bind (body a s) (for_each l' body)
  end.

(** *** The S3 client *)

Fixpoint insert_sorted (k : string) (l : list string) : list string :=
  match l with
  | [] => [k]
  | k' :: l' => if String.leb k k' then k :: l else k' :: insert_sorted k l'
  end.

Definition sort_keys (l : list string) : list string :=
  fold_right insert_sorted [] l.

(** [s3.list_objects_v2(MaxKeys=.., Bucket=.., Prefix=..).get('Contents', [])]
    as the list of the [Key]s: the keys of the bucket that start with the
    prefix, in ascending order, at most [MaxKeys] of them. *)
Definition listed_keys (objects : gmap (string * string) StacItem)
  (MaxKeys : nat) (Bucket Prefix : string) : list string :=
  let keys :=
    map (fun kv => snd (fst kv))
        (List.filter (fun kv => String.eqb (fst (fst kv)) Bucket
                           && String.prefix Prefix (snd (fst kv)))
                (map_to_list objects)) in
  firstn MaxKeys (sort_keys keys).

Definition s3_list_objects_v2 (MaxKeys : nat) (Bucket Prefix : string)
  : M (list string) :=
  fun w =>
    bind (log (list_objects_v2 MaxKeys Bucket Prefix))
         (fun _ => ret (listed_keys (s3_objects w) MaxKeys Bucket Prefix)) w.

(** [json.loads(s3.get_object(Bucket=.., Key=..)['Body'].read())]. *)
Definition s3_get_object (Bucket Key : string) : M StacItem :=
  fun w =>
    bind (log (get_object Bucket Key))
         (fun _ => lift (match s3_objects w !! (Bucket, Key) with
                         | Some item => Ok item
                         | None => Raise KeyError
                         end)) w.

(** [json.dump(item, open(Filename, 'w'))]. *)
Definition write_json (Filename : string) (item : StacItem) : M unit :=
  fun w =>
    (Ok tt, {| s3_objects := s3_objects w;
               local_files := <[Filename := item]> (local_files w);
               calls := calls w ++ [open_w Filename] |}).

(** [s3.upload_file(Filename, Bucket, Key)]. *)
Definition s3_upload_file (Filename Bucket Key : string) : M unit :=
  fun w =>
    match local_files w !! Filename with
    | Some item =>
        (Ok tt, {| s3_objects := <[(Bucket, Key) := item]> (s3_objects w);
                   local_files := local_files w;
                   calls := calls w ++ [upload_file Filename Bucket Key] |})
    | None => (Raise RuntimeError, w)
    end.

(** ** file_utils.py: FileUtils *)

Module FileUtils.

Definition parse_s3_path (s3_path : string) : result (string * string) :=
  let s3_path := PyStr.replace "\" "/" s3_path in
  (let? rest := PyList.index (PyStr.split "//" s3_path) 1 in
   let? bucket_name := PyList.index (PyStr.split "/" rest) 0 in
   let? rest := PyList.index (PyStr.split "//" s3_path) 1 in
   let prefix_path := PyStr.join "/" (tl (PyStr.split "/" rest)) in
   Ok (bucket_name, prefix_path))%result.

Definition exist_s3_path (s3_path : string) : M bool :=
  (let! (bucket_name, prefix_path) := lift (parse_s3_path s3_path) in
   let! s3_objects := s3_list_objects_v2 1 bucket_name prefix_path in
   ret (existsb (fun key => String.eqb key prefix_path) s3_objects)
  )%handler.

End FileUtils.

(** ** OGR geometries

    The handler applies OGR's set operations only to the polygons that
    [create_geometry_from_bbox] builds and to what [Intersection] and
    [Difference] make of them, so a geometry is modelled as a rectilinear
    region: a finite union of closed boxes with sides parallel to the axes.
    The empty list is the empty geometry.  A box with [x_min = x_max] or
    [y_min = y_max] stands for the segment or point two boxes share when
    they only touch. *)

Definition Box : Type := (Q * Q * Q * Q)%type.
Definition Geometry : Type := list Box.

Module Ogr.

Definition Qltb (a b : Q) : bool := negb (Qle_bool b a).

(** The box spanned by the points of a ring; it is the ring's polygon when
    the ring runs around a rectangle parallel to the axes. *)
Fixpoint ring_bounds (ring : list (Q * Q)) : option Box :=
  match ring with
  | [] => None
  | (x, y) :: ring' =>
      match ring_bounds ring' with
      | None => Some (x, y, x, y)
      | Some (x1, y1, x2, y2) =>
          Some (Py.min x x1, Py.min y y1, Py.max x x2, Py.max y y2)
      end
  end.

(** [ogr.Geometry(ogr.wkbLinearRing)], [ring.AddPoint(x, y)],
    [ogr.Geometry(ogr.wkbPolygon)] and [poly.AddGeometry(ring)]. *)
Definition LinearRing : list (Q * Q) := [].
Definition AddPoint (ring : list (Q * Q)) (x y : Q) : list (Q * Q) :=
  ring ++ [(x, y)].
Definition Polygon : Geometry := [].
Definition AddGeometry (poly : Geometry) (ring : list (Q * Q)) : Geometry :=
  match ring_bounds ring with
  | Some b => poly ++ [b]
  | None => poly
  end.

(** What two boxes have in common, as a box; it has [x_max < x_min] or
    [y_max < y_min] when the boxes are apart. *)
Definition box_meet (r n : Box) : Box :=
  let '(x1, y1, x2, y2) := r in
  let '(u1, v1, u2, v2) := n in
  (Py.max x1 u1, Py.max y1 v1, Py.min x2 u2, Py.min y2 v2).

Definition box_nonempty (r : Box) : bool :=
  let '(x1, y1, x2, y2) := r in
  Qle_bool x1 x2 && Qle_bool y1 y2.

(** [g.Intersects(h)]: the closed regions share a point. *)
Definition Intersects (g h : Geometry) : bool :=
  existsb (fun r => existsb (fun n => box_nonempty (box_meet r n)) h) g.

(** [g.Intersection(h)]. *)
Definition Intersection (g h : Geometry) : Geometry :=
  flat_map (fun r => List.filter box_nonempty (map (box_meet r) h)) g.

(** Whether [[u, v]] takes something away from [[lo, hi]] on one axis:
    a stretch of positive length of an extended side, or the single
    coordinate of a flat one. *)
Definition axis_overlap (lo hi u v : Q) : bool :=
  if Qltb lo hi
  then Qltb (Py.max lo u) (Py.min hi v)
  else Qle_bool u lo && Qle_bool lo v.

(** The box [r] without the box [n]: the strips of [r] to the left and to
    the right of [n], and below and above [n] between them. *)
Definition box_diff (n r : Box) : list Box :=
  let '(x1, y1, x2, y2) := r in
  let '(u1, v1, u2, v2) := n in
  if axis_overlap x1 x2 u1 u2 && axis_overlap y1 y2 v1 v2
  then
    (if Qltb x1 u1 then [(x1, y1, u1, y2)] else []) ++
    (if Qltb u2 x2 then [(u2, y1, x2, y2)] else []) ++
    (if Qltb y1 v1 then [(Py.max x1 u1, y1, Py.min x2 u2, v1)] else []) ++
    (if Qltb v2 y2 then [(Py.max x1 u1, v2, Py.min x2 u2, y2)] else [])
  else [r].

(** [g.Difference(h)]. *)
Definition Difference (g h : Geometry) : Geometry :=
  fold_left (fun acc n => flat_map (box_diff n) acc) h g.

(** [g.GetEnvelope()]: [(MinX, MaxX, MinY, MaxY)], all zero for the empty
    geometry. *)
Fixpoint GetEnvelope (g : Geometry) : Q * Q * Q * Q :=
  match g with
  | [] => (0, 0, 0, 0)
  | (x1, y1, x2, y2) :: [] => (x1, x2, y1, y2)
  | (x1, y1, x2, y2) :: g' =>
      let '(MinX, MaxX, MinY, MaxY) := GetEnvelope g' in
      (Py.min x1 MinX, Py.max x2 MaxX, Py.min y1 MinY, Py.max y2 MaxY)
  end.

Definition IsEmpty (g : Geometry) : bool :=
  match g with [] => true | _ => false end.

(** [g.GetArea()], for a region whose boxes do not overlap. *)
Definition box_area (r : Box) : Q :=
  let '(x1, y1, x2, y2) := r in
  Py.max 0 (x2 - x1) * Py.max 0 (y2 - y1).

Definition GetArea (g : Geometry) : Q :=
  fold_right (fun r acc => box_area r + acc) 0 g.

(** The length of [[lo, hi]] within a window [[A, B]], or as it is. *)
Definition span (window : option (Q * Q)) (lo hi : Q) : Q :=
  match window with
  | None => Py.max 0 (hi - lo)
  | Some (A, B) => Py.max 0 (Py.min hi B - Py.max lo A)
  end.

Definition x_window (window : option Box) : option (Q * Q) :=
  match window with
  | None => None
  | Some (A, _, B, _) => Some (A, B)
  end.

Definition y_window (window : option Box) : option (Q * Q) :=
  match window with
  | None => None
  | Some (_, A, _, B) => Some (A, B)
  end.

(** The area of a box, and of a region, within a window. *)
Definition box_content (window : option Box) (r : Box) : Q :=
  let '(x1, y1, x2, y2) := r in
  span (x_window window) x1 x2 * span (y_window window) y1 y2.

Definition content (window : option Box) (g : Geometry) : Q :=
  fold_right (fun r acc => box_content window r + acc) 0 g.

(** The window narrowed to a box. *)
Definition narrow (n : Box) (window : option Box) : option Box :=
  match window with
  | None => Some n
  | Some b => Some (box_meet n b)
  end.

(** The area of a region within a window and outside the boxes [ns], by
    inclusion and exclusion. *)
Fixpoint remaining (ns : list Box) (window : option Box) (g : Geometry) : Q :=
  match ns with
  | [] => content window g
  | n :: ns' => remaining ns' window g - remaining ns' (narrow n window) g
  end.

(** Two windows with equal sides. *)
Definition window_eq (w w' : option Box) : Prop :=
  match w, w' with
  | None, None => True
  | Some (a1, b1, c1, d1), Some (a2, b2, c2, d2) =>
      a1 == a2 /\ b1 == b2 /\ c1 == c2 /\ d1 == d2
  | _, _ => False
  end.



(** The points of a geometry. *)
Definition box_has (r : Box) (p : Q * Q) : Prop :=
  let '(x1, y1, x2, y2) := r in
  x1 <= fst p /\ fst p <= x2 /\ y1 <= snd p /\ snd p <= y2.

Definition has (g : Geometry) (p : Q * Q) : Prop :=
  exists r, In r g /\ box_has r p.

(** [g] lies within [h]. *)
Definition Within (g h : Geometry) : Prop :=
  forall p, has g p -> has h p.

End Ogr.


(** ** osgeo_utils.py: OgrCommonUtils *)

Definition create_geometry_from_bbox (x_min y_min x_max y_max : Q)
  : Geometry :=
  let ring := Ogr.LinearRing in
  let ring := Ogr.AddPoint ring x_min y_min in
  let ring := Ogr.AddPoint ring x_max y_min in
  let ring := Ogr.AddPoint ring x_max y_max in
  let ring := Ogr.AddPoint ring x_min y_max in
  let ring := Ogr.AddPoint ring x_min y_min in
  let poly := Ogr.Polygon in
  let poly := Ogr.AddGeometry poly ring in
  poly.

(** ** numpy arrays

    A two-dimensional array is the list of its rows.  An array without rows
    has shape [(0, 0)] here. *)

Definition Raster : Type := list (list Z).
Definition Mask : Type := list (list bool).

Module Np.

Definition shape {A} (a : list (list A)) : nat * nat :=
  (length a, match a with [] => 0%nat | r :: _ => length r end).

Definition shape_eqb (s t : nat * nat) : bool :=
  Nat.eqb (fst s) (fst t) && Nat.eqb (snd s) (snd t).

(** [np.zeros_like(a, dtype=np.bool)]. *)
Definition zeros_like (a : Raster) : Mask :=
  map (map (fun _ => false)) a.

(** [a == code], [a > 0], [~m], [m.astype(np.int)]. *)
Definition eq_scalar (a : Raster) (code : Z) : Mask :=
  map (map (fun v => Z.eqb v code)) a.
Definition gt_zero (a : Raster) : Mask :=
  map (map (fun v => Z.ltb 0 v)) a.
Definition invert (m : Mask) : Mask :=
  map (map negb) m.
Definition astype_int (m : Mask) : Raster :=
  map (map (fun b : bool => if b then 1%Z else 0%Z)) m.

(** [np.logical_or(a, b)] on two masks of one shape. *)
Definition logical_or (a b : Mask) : Mask :=
  zip_with (zip_with orb) a b.

(** Broadcasting of two dimensions, and of an axis of length one. *)
Definition broadcast_dim (n m : nat) : result nat :=
  if Nat.eqb n m then Ok n
  else if Nat.eqb n 1 then Ok m
  else if Nat.eqb m 1 then Ok n
  else Raise ValueError.

Definition stretch {A} (n : nat) (a : list A) : list A :=
  if Nat.eqb (length a) n then a
  else match a with
       | [x] => repeat x n
       | _ => a
       end.

(** [a & b] on masks, with numpy's broadcasting. *)
Definition bitwise_and (a b : Mask) : result Mask :=
  (let? rows := broadcast_dim (fst (shape a)) (fst (shape b)) in
   let? cols := broadcast_dim (snd (shape a)) (snd (shape b)) in
   Ok (zip_with (zip_with andb)
         (stretch rows (map (stretch cols) a))
         (stretch rows (map (stretch cols) b))))%result.

(** [a[m] = v]: the boolean index must have the shape of the array. *)
Definition setitem (a : Raster) (m : Mask) (v : Z) : result Raster :=
  if shape_eqb (shape a) (shape m)
  then Ok (zip_with (zip_with (fun x (b : bool) => if b then v else x)) a m)
  else Raise IndexError.

(** [np.count_nonzero(m)]. *)
Definition count_nonzero (m : Mask) : Z :=
  fold_right (fun row acc =>
    (fold_right (fun (b : bool) n => if b then n + 1 else n) 0 row + acc)%Z)
    0%Z m.

End Np.

(** ** lambda_function.py: masks and statistics *)

Definition sen2cor_valid_classes : list Z := [2; 4; 5; 6; 7; 11]%Z.
Definition sigpac_valid_classes : list Z := [0; 5]%Z.

Definition get_valid_sen2cor_cloud_mask
  (cm_raster : Raster) (valid_classes : list Z) : Mask :=
  let scl_mask := Np.zeros_like cm_raster in
  fold_left
    (fun scl_mask code => Np.logical_or scl_mask (Np.eq_scalar cm_raster code))
    valid_classes scl_mask.

Definition get_valid_sigpac_urban_mask
  (lu_raster : Raster) (valid_classes : list Z) : Mask :=
  let lu_mask := Np.zeros_like lu_raster in
  fold_left
    (fun lu_mask code => Np.logical_or lu_mask (Np.eq_scalar lu_raster code))
    valid_classes lu_mask.

(** "Merge valid pixels from both input raster data": the handler calls the
    two mask functions with their default classes; the classes are arguments
    here. *)
Definition merge_valid_pixels
  (cm_classes lu_classes : list Z) (cm_raster lu_raster : Raster)
  : result Raster :=
  let cm_raster := get_valid_sen2cor_cloud_mask cm_raster cm_classes in
  let cm_raster := Np.astype_int cm_raster in
  let lu_raster := get_valid_sigpac_urban_mask lu_raster lu_classes in
  let lu_raster := Np.astype_int lu_raster in
  let rs_raster := lu_raster in
  (let? valid_mask :=
     Np.bitwise_and (Np.gt_zero cm_raster) (Np.gt_zero lu_raster) in
   Np.setitem rs_raster valid_mask 2)%result.

(** The counts and the cover the handler stores:
    [(count_of_urban_pixels, count_of_valid_urban_pixels, urban_cover)]. *)
Definition Statistics : Type := (Z * Z * Q)%type.

(** "Calculate final results": the merged raster under the footprint mask. *)
Definition urban_statistics (rs_raster gm_raster : Raster)
  : result Statistics :=
  let valid_mask := Np.eq_scalar gm_raster 1 in
  (let? rs_raster := Np.setitem rs_raster (Np.invert valid_mask) 0 in
   let count_of_valid_urban_pixels :=
     Np.count_nonzero (Np.eq_scalar rs_raster 2) in
   let count_of_urban_pixels := Np.count_nonzero (Np.gt_zero rs_raster) in
   let? urban_cover :=
     Py.div (100 * inject_Z count_of_valid_urban_pixels)
            (inject_Z count_of_urban_pixels) in
   Ok (count_of_urban_pixels, count_of_valid_urban_pixels, urban_cover)
  )%result.

(** The statistics step on a cloud-mask window, a land-use window and a
    footprint mask. *)
Definition statistics_step
  (cm_classes lu_classes : list Z) (cm_raster lu_raster gm_raster : Raster)
  : result Statistics :=
  (let? rs_raster :=
     merge_valid_pixels cm_classes lu_classes cm_raster lu_raster in
   urban_statistics rs_raster gm_raster)%result.


(** A result of the statistics step with the given counts and cover. *)
Definition statistics_are
  (r : result Statistics) (urban_pixel_count valid_urban_pixel_count : Z)
  (urban_cover_percent : Q) : Prop :=
  match r with
  | Ok (urban, valid, cover) =>
      urban = urban_pixel_count /\ valid = valid_urban_pixel_count
      /\ cover == urban_cover_percent
  | Raise _ => False
  end.

(** The footprint mask of the shape of a raster with nothing burned. *)
Definition all_outside (rs_raster : Raster) : Raster :=
  map (map (fun _ => 0%Z)) rs_raster.
(** ** GDAL, OSR and the rasterizer

    What the handler asks of the native library and cannot be read off the
    repository: opening a dataset, reprojecting a point, reading a window of
    band 1, creating an in-memory dataset and burning a layer into it.
    [ReadAsArray] gets the pixels and the size of the band and the window
    [xoff yoff win_xsize win_ysize]; it returns the raw values and is not
    given the no-data value of the band. *)

Inductive SpatialReference : Type :=
| EPSG (code : Z).

Definition IsGeographic (crs : SpatialReference) : bool :=
  match crs with
  | EPSG code => Z.eqb code 4326
  end.

Inductive GeometryType : Type :=
| wkbPolygon.

(** A feature is its integer field and its geometry (an exterior ring). *)
Record Layer : Type := {
  layer_srs : SpatialReference;
  layer_type : GeometryType;
  layer_field : string;
  layer_features : list (Z * list (Q * Q))
}.

Record Gdal : Type := {
  Open : string -> result Dataset;
  CoordinateTransformation :
    SpatialReference -> SpatialReference -> Q * Q -> Q * Q;
  ReadAsArray : (Z -> Z -> Z) -> Z -> Z -> Z -> Z -> Z -> Z -> result Raster;
  Create : Z -> Z -> result Dataset;
  RasterizeLayer : Dataset -> Layer -> string -> Dataset
}.

Definition SetGeoTransform (dataset : Dataset) (gt : Q * Q * Q * Q * Q * Q)
  : Dataset :=
  {| RasterXSize := RasterXSize dataset;
     RasterYSize := RasterYSize dataset;
     GeoTransform := gt;
     NoDataValue := NoDataValue dataset;
     Band1 := Band1 dataset |}.

Definition SetNoDataValue (dataset : Dataset) (no_data : Q) : Dataset :=
  {| RasterXSize := RasterXSize dataset;
     RasterYSize := RasterYSize dataset;
     GeoTransform := GeoTransform dataset;
     NoDataValue := Some no_data;
     Band1 := Band1 dataset |}.

(** ** osgeo_utils.py: rasterize_geometries *)

Definition rasterize_geometries
  (gdal : Gdal) (dataset : Dataset) (spatial_ref : SpatialReference)
  (geometry_type : GeometryType) (geometries : list (list (Q * Q)))
  : Dataset :=
  let attribute_name := "my_field"%string in
  let temp_layer :=
    {| layer_srs := spatial_ref; layer_type := geometry_type;
       layer_field := attribute_name; layer_features := [] |} in
  let temp_layer :=
    fold_left
      (fun temp_layer geometry =>
         let feature := (1%Z, geometry) in
         {| layer_srs := layer_srs temp_layer;
            layer_type := layer_type temp_layer;
            layer_field := layer_field temp_layer;
            layer_features := layer_features temp_layer ++ [feature] |})
      geometries temp_layer in
  RasterizeLayer gdal dataset temp_layer ("ATTRIBUTE=" ++ attribute_name).

(** ** lambda_function.py: lambda_handler *)

Record Response : Type := {
  statusCode : Z;
  body : string
}.

(** One neighbour's extent taken off the running AOI (line 161 and 163). *)
Definition subtract_extent (aoi_geometry : Geometry) (temp_env : Q * Q * Q * Q)
  : Geometry :=
  let '(e0, e1, e2, e3) := temp_env in
  let geom_obj := create_geometry_from_bbox e0 e1 e2 e3 in
  if Ogr.Intersects aoi_geometry geom_obj
  then Ogr.Difference aoi_geometry geom_obj
  else aoi_geometry.

(** The box of the polygon that [create_geometry_from_bbox] builds. *)
Definition extent_box (temp_env : Envelope) : Box :=
  let '(e0, e1, e2, e3) := temp_env in
  (Py.min e0 (Py.min e2 (Py.min e2 (Py.min e0 e0))),
   Py.min e1 (Py.min e1 (Py.min e3 (Py.min e3 e1))),
   Py.max e0 (Py.max e2 (Py.max e2 (Py.max e0 e0))),
   Py.max e1 (Py.max e1 (Py.max e3 (Py.max e3 e1)))).

(** The name and the path of the item of a grid tile (lines 151 and 152). *)
Definition item_name_of (item_id grid_name : string) : string :=
  PyStr.slice 0 4 item_id ++ grid_name ++ PyStr.drop 9 item_id.

Definition item_path_of (output_folder item_name : string) : string :=
  PyStr.path_join output_folder (item_name ++ ".json").

(** The body of the loop over the grid names (lines 151 to 163). *)
Definition subtract_processed_tile
  (output_folder item_id grid_name : string) (aoi_geometry : Geometry)
  : M Geometry :=
  let item_name := item_name_of item_id grid_name in
  let item_path := item_path_of output_folder item_name in
  (let! _ := FileUtils.exist_s3_path item_path in
   if negb (String.eqb item_name item_id)
   then
     let! found := FileUtils.exist_s3_path item_path in
     if found : bool
     then
       let! (bucket_name, prefix_path) :=
         lift (FileUtils.parse_s3_path item_path) in
       let! item_obj := s3_get_object bucket_name prefix_path in
       let! land_use :=
         lift (match msg_land_use item_obj with
               | Some land_use => Ok land_use
               | None => Raise KeyError
               end) in
       let temp_env := aoi_extent land_use in
       let! e0 := lift (PyList.index temp_env 0) in
       let! e1 := lift (PyList.index temp_env 1) in
       let! e2 := lift (PyList.index temp_env 2) in
       let! e3 := lift (PyList.index temp_env 3) in
       ret (subtract_extent aoi_geometry (e0, e1, e2, e3))
     else ret aoi_geometry
   else ret aoi_geometry)%handler.

(** The extent that the iteration of a grid name takes off the AOI when it
    does not raise, as a list: none for the tile of the item itself, for a
    tile without an item in the output folder and for an item the iteration
    raises on. *)
Definition processed_extents
  (objects : gmap (string * string) StacItem)
  (output_folder item_id grid_name : string) : list Envelope :=
  let item_name := item_name_of item_id grid_name in
  let item_path := item_path_of output_folder item_name in
  if negb (String.eqb item_name item_id)
  then
    match FileUtils.parse_s3_path item_path with
    | Ok (bucket_name, prefix_path) =>
        if existsb (fun key => String.eqb key prefix_path)
                   (listed_keys objects 1 bucket_name prefix_path)
        then
          match objects !! (bucket_name, prefix_path) with
          | Some item_obj =>
              match msg_land_use item_obj with
              | Some land_use =>
                  match aoi_extent land_use with
                  | e0 :: e1 :: e2 :: e3 :: _ => [(e0, e1, e2, e3)]
                  | _ => []
                  end
              | None => []
              end
          | None => []
          end
        else []
    | Raise _ => []
    end
  else [].

(** The loop over the grid names (lines 150 to 163). *)
Definition subtract_processed_tiles
  (output_folder item_id : string) (grid_names : list string)
  (aoi_geometry : Geometry) : M Geometry :=
  for_each grid_names (subtract_processed_tile output_folder item_id)
           aoi_geometry.

(** The extent of the AOI, kept within the land-use extent (lines 165 to
    170). *)
Definition clamp_aoi_extent (aoi_geometry : Geometry) (lu_extent : Envelope)
  : Envelope :=
  let '(temp_x_min, temp_x_max, temp_y_min, temp_y_max) :=
    Ogr.GetEnvelope aoi_geometry in
  let '(lu0, lu1, lu2, lu3) := lu_extent in
  let aoi_x_min := Py.max temp_x_min lu0 in
  let aoi_y_min := Py.max temp_y_min lu1 in
  let aoi_x_max := Py.min temp_x_max lu2 in
  let aoi_y_max := Py.min temp_y_max lu3 in
  (aoi_x_min, aoi_y_min, aoi_x_max, aoi_y_max).

(** What the handler has at hand once both datasets are open (lines 84 to
    136). *)
Record Inputs : Type := {
  in_output_folder : string;
  in_grid_names : list string;
  in_message_obj : StacItem;
  in_geometry : list (Q * Q);
  in_cm_dataset : Dataset;
  in_lu_dataset : Dataset
}.

Definition grid_crs : SpatialReference := EPSG 32630.
Definition geog_crs : SpatialReference := EPSG 4326.

(** Lines 84 to 136: the environment, the metadata of the product, the
    footprint in the CRS of the grid, and the two datasets.  [event] is the
    item that [json.loads(event['Records'][0]['Sns']['Message'])] gives;
    [environ] is [os.environ].  The [print] calls are left out. *)
Definition open_inputs
  (gdal : Gdal) (environ : gmap string string) (event : StacItem)
  : result Inputs :=
  (let? lu_dataset_path :=
     PyList.getitem environ "LANDUSE_DATASET_S3_PATH" in
   let? output_folder := PyList.getitem environ "OUTPUT_S3_FOLDER" in
   let? tiles := PyList.getitem environ "S2L2A_TILES" in
   let grid_names := PyStr.split "," tiles in

   let message_obj := event in
   let item_id := msg_id message_obj in
   let properties := msg_properties message_obj in
   let assets := msg_assets message_obj in

   let? product_id := PyList.getitem properties "sentinel:product_id" in
   let? platform := PyList.getitem properties "platform" in
   let? utm_zone := PyList.getitem properties "sentinel:utm_zone" in
   let? latitude := PyList.getitem properties "sentinel:latitude_band" in
   let? grid_square := PyList.getitem properties "sentinel:grid_square" in
   let product_date := PyStr.slice 10 18 item_id in
   let? cloud_cover := PyList.getitem properties "eo:cloud_cover" in

   let transform := CoordinateTransformation gdal geog_crs grid_crs in

   let geometry := msg_geometry message_obj in
   let geometry := map transform geometry in

   let? href := PyList.getitem assets "SCL" in
   let cm_object_path := ("/vsicurl/" ++ href)%string in
   let? cm_dataset := Open gdal cm_object_path in

   let lu_object_path := PyStr.replace "s3://" "/vsis3/" lu_dataset_path in
   let? lu_dataset := Open gdal lu_object_path in

   Ok {| in_output_folder := output_folder;
         in_grid_names := grid_names;
         in_message_obj := message_obj;
         in_geometry := geometry;
         in_cm_dataset := cm_dataset;
         in_lu_dataset := lu_dataset |})%result.

(** The polygon of the envelope of a dataset (lines 122, 123 and 132,
    133). *)
Definition envelope_geometry (dataset : Dataset) : Geometry :=
  let '(e0, e1, e2, e3) := get_envelope dataset in
  create_geometry_from_bbox e0 e1 e2 e3.

Definition no_intersection : Response :=
  {| statusCode := 200;
     body := PyStr.json_dumps "Input data do not intersect" |}.

Definition ok_response : Response :=
  {| statusCode := 200; body := PyStr.json_dumps "OK" |}.

(** Lines 147 to 170: the AOI common to both datasets, without the extents
    of the tiles already processed, and its extent kept within the land-use
    extent. *)
Definition residual_aoi_extent (inputs : Inputs) : M Envelope :=
  let cm_geometry := envelope_geometry (in_cm_dataset inputs) in
  let lu_extent := get_envelope (in_lu_dataset inputs) in
  let lu_geometry := envelope_geometry (in_lu_dataset inputs) in
  (let aoi_geometry := Ogr.Intersection cm_geometry lu_geometry in
   let! aoi_geometry :=
     subtract_processed_tiles
       (in_output_folder inputs) (msg_id (in_message_obj inputs))
       (in_grid_names inputs) aoi_geometry in
   ret (clamp_aoi_extent aoi_geometry lu_extent))%handler.


(** A window that lies within the grid of a dataset. *)
Definition in_bounds (dataset : Dataset) (window : PixelWindow) : Prop :=
  let '(left_, top, right_, bottom) := window in
  (0 <= left_ /\ left_ <= right_ /\ right_ <= RasterXSize dataset
   /\ 0 <= top /\ top <= bottom /\ bottom <= RasterYSize dataset)%Z.

(** Lines 138 to 261. *)
Definition process_inputs (gdal : Gdal) (inputs : Inputs) : M Response :=
  let output_folder := in_output_folder inputs in
  let grid_names := in_grid_names inputs in
  let message_obj := in_message_obj inputs in
  let item_id := msg_id message_obj in
  let geometry := in_geometry inputs in
  let cm_dataset := in_cm_dataset inputs in
  let lu_dataset := in_lu_dataset inputs in
  let cm_extent := get_envelope cm_dataset in
  let cm_geometry := envelope_geometry cm_dataset in
  let lu_extent := get_envelope lu_dataset in
  let lu_geometry := envelope_geometry lu_dataset in
  let '(cm0, cm1, cm2, cm3) := cm_extent in

  if negb (Ogr.Intersects lu_geometry cm_geometry)
  then ret no_intersection
  else
    (let! aoi_extent := residual_aoi_extent inputs in
     let '(aoi0, aoi1, aoi2, aoi3) := aoi_extent in

     let! (left_, top, right_, bottom) :=
       lift (get_reading_window cm_dataset aoi_extent) in
     let cm_no_data := NoDataValue cm_dataset in
     let! cm_raster :=
       lift (ReadAsArray gdal (Band1 cm_dataset)
               (RasterXSize cm_dataset) (RasterYSize cm_dataset)
               left_ top (right_ - left_)%Z (bottom - top)%Z) in
     let! (left_, top, right_, bottom) :=
       lift (get_reading_window lu_dataset aoi_extent) in
     let lu_no_data := NoDataValue lu_dataset in
     let! lu_raster :=
       lift (ReadAsArray gdal (Band1 lu_dataset)
               (RasterXSize lu_dataset) (RasterYSize lu_dataset)
               left_ top (right_ - left_)%Z (bottom - top)%Z) in

     let num_decimals := if IsGeographic grid_crs then 10%Z else 5%Z in
     let! resolution_x :=
       lift (Py.div (cm2 - cm0) (inject_Z (RasterXSize cm_dataset))) in
     let resolution_x := Py.round_digits resolution_x num_decimals in
     let! resolution_y :=
       lift (Py.div (cm3 - cm1) (inject_Z (RasterYSize cm_dataset))) in
     let resolution_y := Py.round_digits resolution_y num_decimals in

     let! rs_raster :=
       lift (merge_valid_pixels sen2cor_valid_classes sigpac_valid_classes
               cm_raster lu_raster) in

     let! gm_raster_size_x := lift (Py.div (aoi2 - aoi0) resolution_x) in
     let gm_raster_size_x := Py.int gm_raster_size_x in
     let! gm_raster_size_y := lift (Py.div (aoi3 - aoi1) resolution_y) in
     let gm_raster_size_y := Py.int gm_raster_size_y in
     let gm_no_data := 0 in

     let! gm_dataset :=
       lift (Create gdal gm_raster_size_x gm_raster_size_y) in
     let gm_dataset :=
       SetGeoTransform gm_dataset
         (aoi0, resolution_x, 0, aoi3, 0, - resolution_y) in
     let gm_dataset := SetNoDataValue gm_dataset gm_no_data in
     let gm_dataset :=
       rasterize_geometries gdal gm_dataset grid_crs wkbPolygon [geometry] in
     let! gm_raster :=
       lift (ReadAsArray gdal (Band1 gm_dataset)
               (RasterXSize gm_dataset) (RasterYSize gm_dataset)
               0 0 (RasterXSize gm_dataset) (RasterYSize gm_dataset)) in

     let! (count_of_urban_pixels, count_of_valid_urban_pixels, urban_cover) :=
       lift (urban_statistics rs_raster gm_raster) in

     let message_obj :=
       {| msg_id := msg_id message_obj;
          msg_properties := msg_properties message_obj;
          msg_geometry := msg_geometry message_obj;
          msg_assets := msg_assets message_obj;
          msg_land_use :=
            Some {| urban_pixels := count_of_urban_pixels;
                    valid_urban_pixels := count_of_valid_urban_pixels;
                    urban_cover := urban_cover;
                    aoi_extent := [cm0; cm1; cm2; cm3] |} |} in

     let temp_file := ("/tmp/" ++ item_id ++ ".json")%string in
     let! _ := write_json temp_file message_obj in
     let! (bucket_name, prefix_path) :=
       lift (FileUtils.parse_s3_path
               (PyStr.path_join output_folder (item_id ++ ".json"))) in
     let! _ := s3_upload_file temp_file bucket_name prefix_path in
     ret ok_response)%handler.

(** The handler. *)
Definition lambda_handler
  (gdal : Gdal) (environ : gmap string string) (event : StacItem)
  : M Response :=
  (let! inputs := lift (open_inputs gdal environ event) in
   process_inputs gdal inputs)%handler.

(** A dataset declaring another no-data value, and a GDAL whose datasets
    declare the no-data values that [no_data] gives for their paths. *)
Definition with_no_data (no_data : option Q) (dataset : Dataset) : Dataset :=
  {| RasterXSize := RasterXSize dataset;
     RasterYSize := RasterYSize dataset;
     GeoTransform := GeoTransform dataset;
     NoDataValue := no_data;
     Band1 := Band1 dataset |}.

Definition declare_no_data (no_data : string -> option Q) (gdal : Gdal)
  : Gdal :=
  Build_Gdal
    (fun path =>
       match Open gdal path with
       | Ok dataset => Ok (with_no_data (no_data path) dataset)
       | Raise e => Raise e
       end)
    (CoordinateTransformation gdal)
    (ReadAsArray gdal)
    (Create gdal)
    (RasterizeLayer gdal).

(** An envelope as the JSON list the handler stores. *)
Definition envelope_list (envelope : Envelope) : list Q :=
  let '(e0, e1, e2, e3) := envelope in [e0; e1; e2; e3].

(** [w'] is [w] after the calls [new]; nothing was written. *)
Definition extends (w w' : World) (new : list Call) : Prop :=
  s3_objects w' = s3_objects w
  /\ local_files w' = local_files w
  /\ calls w' = calls w ++ new.

(** ** Stand-ins for the native library and a small scene

    A GDAL that serves two given datasets, leaves coordinates as they are,
    reads windows that lie within the band and burns a feature where the
    centre of a pixel falls within the bounds of its ring (exact for a ring
    around a rectangle parallel to the axes). *)

Module Fake.

Definition Open (cm_dataset lu_dataset : Dataset) (path : string)
  : result Dataset :=
  if String.prefix "/vsicurl/" path then Ok cm_dataset
  else if String.prefix "/vsis3/" path then Ok lu_dataset
  else Raise RuntimeError.

Definition ReadAsArray (band : Z -> Z -> Z)
  (XSize YSize xoff yoff win_xsize win_ysize : Z) : result Raster :=
  if (win_xsize <? 0)%Z || (win_ysize <? 0)%Z then Raise ValueError
  else if (xoff <? 0)%Z || (yoff <? 0)%Z
          || (XSize <? xoff + win_xsize)%Z || (YSize <? yoff + win_ysize)%Z
  then Raise RuntimeError
  else Ok (map (fun row => map (fun col => band col row)
                             (seqZ xoff win_xsize))
               (seqZ yoff win_ysize)).

Definition Create (xsize ysize : Z) : result Dataset :=
  if (0 <? xsize)%Z && (0 <? ysize)%Z
  then Ok {| RasterXSize := xsize; RasterYSize := ysize;
             GeoTransform := (0, 1, 0, 0, 0, 1);
             NoDataValue := None;
             Band1 := fun _ _ => 0%Z |}
  else Raise RuntimeError.

Definition burns (gt : Q * Q * Q * Q * Q * Q) (ring : list (Q * Q))
  (col row : Z) : bool :=
  let '(c, a, b, f, d, e) := gt in
  let x := c + a * (inject_Z col + (1 # 2)) + b * (inject_Z row + (1 # 2)) in
  let y := f + d * (inject_Z col + (1 # 2)) + e * (inject_Z row + (1 # 2)) in
  match Ogr.ring_bounds ring with
  | Some (x1, y1, x2, y2) =>
      Qle_bool x1 x && Qle_bool x x2 && Qle_bool y1 y && Qle_bool y y2
  | None => false
  end.

Definition RasterizeLayer (dataset : Dataset) (layer : Layer)
  (options : string) : Dataset :=
  {| RasterXSize := RasterXSize dataset;
     RasterYSize := RasterYSize dataset;
     GeoTransform := GeoTransform dataset;
     NoDataValue := NoDataValue dataset;
     Band1 := fun col row =>
       fold_left (fun v feature =>
                    if burns (GeoTransform dataset) (snd feature) col row
                    then fst feature else v)
                 (layer_features layer) (Band1 dataset col row) |}.

Definition gdal (cm_dataset lu_dataset : Dataset) : Gdal :=
  Build_Gdal (Open cm_dataset lu_dataset) (fun _ _ p => p)
             ReadAsArray Create RasterizeLayer.

End Fake.

Module Scene.

(** The 4x4 cloud-mask window, land-use window and footprint mask of the
    end-to-end example. *)
Definition cm_window : Raster :=
  [[4; 4; 1; 1]; [4; 4; 1; 1]; [2; 2; 2; 2]; [2; 2; 2; 2]]%Z.
Definition lu_window : Raster := repeat (repeat 0%Z 4) 4.
Definition full_mask : Raster := repeat (repeat 1%Z 4) 4.
Definition outside_mask : Raster := repeat (repeat 0%Z 4) 4.

(** A cloud-mask tile of 4x4 pixels of 10 m over [(100, 200, 140, 240)]
    holding [cm_window], and a land-use raster of 4x4 pixels over
    [(120, 200, 160, 240)] that is urban everywhere. *)
Definition cm_dataset : Dataset :=
  {| RasterXSize := 4; RasterYSize := 4;
     GeoTransform := (100, 10, 0, 240, 0, -10);
     NoDataValue := Some 0;
     Band1 := fun col row =>
       nth (Z.to_nat col) (nth (Z.to_nat row) cm_window []) 0%Z |}.

Definition lu_dataset : Dataset :=
  {| RasterXSize := 4; RasterYSize := 4;
     GeoTransform := (120, 10, 0, 240, 0, -10);
     NoDataValue := Some 255;
     Band1 := fun _ _ => 0%Z |}.

(** A land-use raster far from the tile, over [(500, 200, 540, 240)]. *)
Definition far_lu_dataset : Dataset :=
  {| RasterXSize := 4; RasterYSize := 4;
     GeoTransform := (500, 10, 0, 240, 0, -10);
     NoDataValue := Some 255;
     Band1 := fun _ _ => 0%Z |}.


Definition environ : gmap string string :=
  {[ "LANDUSE_DATASET_S3_PATH"%string := "s3://landuse/sigpac.tif"%string;
     "OUTPUT_S3_FOLDER"%string := "s3://results/out"%string;
     "S2L2A_TILES"%string := "30TXM,30TWM"%string ]}.

Definition item_id : string := "S2A_30TXM_20210101_0_L2A".

Definition event : StacItem :=
  {| msg_id := item_id;
     msg_properties :=
       {[ "sentinel:product_id"%string := "S2A_MSIL2A_20210101"%string;
          "platform"%string := "sentinel-2a"%string;
          "sentinel:utm_zone"%string := "30"%string;
          "sentinel:latitude_band"%string := "T"%string;
          "sentinel:grid_square"%string := "XM"%string;
          "eo:cloud_cover"%string := "12.5"%string ]};
     msg_geometry :=
       [(100, 200); (140, 200); (140, 240); (100, 240); (100, 200)];
     msg_assets := {[ "SCL"%string := "https://host/SCL.tif"%string ]};
     msg_land_use := None |}.

(** The item of the neighbour tile 30TWM with a given extent. *)
Definition neighbour (extent : list Q) : StacItem :=
  {| msg_id := "S2A_30TWM_20210101_0_L2A";
     msg_properties := ∅;
     msg_geometry := [];
     msg_assets := ∅;
     msg_land_use :=
       Some {| urban_pixels := 1; valid_urban_pixels := 1;
               urban_cover := 100; aoi_extent := extent |} |}.

Definition empty_world : World :=
  {| s3_objects := ∅; local_files := ∅; calls := [] |}.

(** The output folder with the item of 30TWM in it. *)
Definition world_with (extent : list Q) : World :=
  {| s3_objects :=
       {[ ("results"%string, "out/S2A_30TWM_20210101_0_L2A.json"%string)
          := neighbour extent ]};
     local_files := ∅;
     calls := [] |}.

(** The output folder with an item of the tile of the event itself in it. *)
Definition world_with_own_item : World :=
  {| s3_objects :=
       {[ ("results"%string, "out/S2A_30TXM_20210101_0_L2A.json"%string)
          := neighbour [0; 0; 1000; 1000] ]};
     local_files := ∅;
     calls := [] |}.

(** The output folder with the items of two neighbour tiles whose extents
    overlap each other and the AOI. *)
Definition world_with_two : World :=
  {| s3_objects :=
       {[ ("results"%string, "out/S2A_30TWM_20210101_0_L2A.json"%string)
          := neighbour [0; 0; 130; 230];
          ("results"%string, "out/S2A_30TXN_20210101_0_L2A.json"%string)
          := neighbour [125; 210; 1000; 1000] ]};
     local_files := ∅;
     calls := [] |}.

(** The AOI common to the two datasets of the scene. *)
Definition candidate_aoi : Geometry :=
  Ogr.Intersection (envelope_geometry cm_dataset)
                   (envelope_geometry lu_dataset).

(** The geometry a run left, the empty one if it raised. *)
Definition geometry_of (run : result Geometry * World) : Geometry :=
  match fst run with
  | Ok g => g
  | Raise _ => []
  end.

(** What the handler has at hand in this scene. *)
Definition inputs : Inputs :=
  {| in_output_folder := "s3://results/out";
     in_grid_names := ["30TXM"; "30TWM"]%string;
     in_message_obj := event;
     in_geometry := msg_geometry event;
     in_cm_dataset := cm_dataset;
     in_lu_dataset := lu_dataset |}.

Definition gdal : Gdal := Fake.gdal cm_dataset lu_dataset.

End Scene.

(** ** Notions for the properties of the masks and the statistics *)

(** [code in valid_classes]. *)
Definition in_classes (valid_classes : list Z) (code : Z) : bool :=
  existsb (Z.eqb code) valid_classes.

(** [a.size]: the number of cells of an array. *)
Definition array_size {A} (a : list (list A)) : Z :=
  fold_right (fun row acc => (Z.of_nat (length row) + acc)%Z) 0%Z a.

(** An array of [rows] rows of [cols] cells. *)
Definition has_shape {A} (rows cols : nat) (a : list (list A)) : Prop :=
  length a = rows /\ Forall (fun row => length row = cols) a.

(** The value of a cell of the merged raster, from the cloud code and the
    land-use code of the pixel: 2 for urban under a valid cloud class, 1 for
    urban otherwise, 0 for the rest. *)
Definition merged_cell (cm_classes lu_classes : list Z) (cm lu : Z) : Z :=
  if in_classes lu_classes lu
  then if in_classes cm_classes cm then 2%Z else 1%Z
  else 0%Z.

(** The rasters and the mask of the end-to-end example have 4 rows of 4
    cells. *)
Definition example_rows : nat := 4.
Definition example_cols : nat := 4.

(** ** Notions for what the handler does to the object store *)

(** A computation that writes nothing and makes only calls that satisfy
    [P]. *)
Definition reads_only {A} (P : Call -> Prop) (m : M A) : Prop :=
  forall w, exists new, extends w (snd (m w)) new /\ Forall P new.

(** The calls of the reconciliation: listings, and the fetch of the item of
    a grid name of the list that is not the tile of the item itself. *)
Definition neighbour_call
  (output_folder item_id : string) (grid_names : list string) (c : Call)
  : Prop :=
  match c with
  | list_objects_v2 _ _ _ => True
  | get_object Bucket Key =>
      exists grid_name,
        In grid_name grid_names
        /\ item_name_of item_id grid_name <> item_id
        /\ FileUtils.parse_s3_path
             (item_path_of output_folder (item_name_of item_id grid_name))
           = Ok (Bucket, Key)
  | open_w _ => False
  | upload_file _ _ _ => False
  end.

(** A computation that leaves the objects of S3 as they are. *)
Definition keeps_objects {A} (m : M A) : Prop :=
  forall w, s3_objects (snd (m w)) = s3_objects w.

(** A handler run that leaves the objects as they are, or returns the OK
    response and has put one object, under the path of [item_id] in
    [output_folder], with the identifier [item_id]. *)
Definition writes_own_item_at_most
  (output_folder item_id : string) (m : M Response) : Prop :=
  forall w,
    s3_objects (snd (m w)) = s3_objects w
    \/ (fst (m w) = Ok ok_response
        /\ exists bucket_name prefix_path item,
             FileUtils.parse_s3_path
               (PyStr.path_join output_folder (item_id ++ ".json"))
             = Ok (bucket_name, prefix_path)
             /\ msg_id item = item_id
             /\ s3_objects (snd (m w))
                = <[(bucket_name, prefix_path) := item]> (s3_objects w)).

(** ** Notions for the properties of the paths *)

(** [sep in s]. *)
Fixpoint contains (sep s : string) : bool :=
  String.prefix sep s
  || match s with
     | EmptyString => false
     | String _ s' => contains sep s'
     end.

(** [c in s] for a character. *)
Fixpoint has_char (c : ascii) (s : string) : bool :=
  match s with
  | EmptyString => false
  | String d s' => Ascii.eqb c d || has_char c s'
  end.

(** The output folder with an object whose key starts with the key of the
    item of 30TWM, and no object under that key itself. *)
Definition world_with_longer_key : World :=
  {| s3_objects :=
       {[ ("results"%string,
           "out/S2A_30TWM_20210101_0_L2A.json.bak"%string)
          := Scene.neighbour [0; 0; 1000; 1000] ]};
     local_files := ∅;
     calls := [] |}.

(** ** lambda_function.py: print_statistics *)

(** [np.unique(a)]: the distinct values of the cells, in increasing
    order. *)
Fixpoint insert_unique (v : Z) (l : list Z) : list Z :=
  match l with
  | [] => [v]
  | x :: l' =>
      if (v <? x)%Z then v :: l
      else if (v =? x)%Z then l
      else x :: insert_unique v l'
  end.

Definition np_unique (a : Raster) : list Z :=
  fold_right insert_unique [] (concat a).

(** [a.min()] and [a.max()]: raise [ValueError] on an array without
    cells. *)
Definition np_min (a : Raster) : result Z :=
  match concat a with
  | [] => Raise ValueError
  | v :: l => Ok (fold_left Z.min l v)
  end.

Definition np_max (a : Raster) : result Z :=
  match concat a with
  | [] => Raise ValueError
  | v :: l => Ok (fold_left Z.max l v)
  end.

(** [[f(x) for x in l]] with an [f] that may raise. *)
Fixpoint comprehension {A B} (f : A -> result B) (l : list A)
  : result (list B) :=
  match l with
  | [] => Ok []
  | x :: l' =>
      (let? y := f x in
       let? ys := comprehension f l' in
       Ok (y :: ys))%result
  end.

(** The values [print_statistics] formats into the line it prints. *)
Record StatisticsLine : Type := {
  stat_label : string;
  stat_shape : nat * nat;
  stat_size : Z;
  stat_min : Z;
  stat_max : Z;
  stat_unique : list Z;
  stat_count : list Z;
  stat_percentages : list Q
}.

Definition print_statistics (label : string) (array : Raster)
  : result StatisticsLine :=
  let unique_vals := np_unique array in
  let unique_count :=
    map (fun v => Np.count_nonzero (Np.eq_scalar array v)) unique_vals in
  (let? percentages :=
     comprehension
       (fun v =>
          let? share := Py.div (inject_Z v) (inject_Z (array_size array)) in
          Ok (100 * share))
       unique_count in
   let? lowest := np_min array in
   let? highest := np_max array in
   Ok {| stat_label := label;
         stat_shape := Np.shape array;
         stat_size := array_size array;
         stat_min := lowest;
         stat_max := highest;
         stat_unique := unique_vals;
         stat_count := unique_count;
         stat_percentages := percentages |})%result.

(** A list in strictly increasing order. *)
Fixpoint increasing (l : list Z) : Prop :=
  match l with
  | [] => True
  | x :: l' =>
      match l' with
      | [] => True
      | y :: _ => (x < y)%Z /\ increasing l'
      end
  end.

(** The sum of a list of counts. *)
Definition total (l : list Z) : Z := fold_right Z.add 0%Z l.

(** The number of cells of a row that hold [v]. *)
Definition occurrences (v : Z) (l : list Z) : Z :=
  fold_right (fun (b : bool) n => if b then (n + 1)%Z else n) 0%Z
    (map (fun x => Z.eqb x v) l).

(** ** Notions for the properties of the envelope and of the stored item *)

(** The map position of the corner of pixel [(col, row)] under the
    geotransform of a dataset, as [get_envelope] computes it for its two
    corners. *)
Definition pixel_corner (dataset : Dataset) (col row : Z) : Q * Q :=
  let '(c, a, b, f, d, e) := GeoTransform dataset in
  (a * inject_Z col + b * inject_Z row + c,
   d * inject_Z col + e * inject_Z row + f).

(** A geotransform without rotation terms. *)
Definition north_up (dataset : Dataset) : Prop :=
  let '(c, a, b, f, d, e) := GeoTransform dataset in
  b == 0 /\ d == 0.

(** A point within an envelope. *)
Definition in_envelope (p : Q * Q) (envelope : Envelope) : Prop :=
  let '(min_x, min_y, max_x, max_y) := envelope in
  min_x <= fst p <= max_x /\ min_y <= snd p <= max_y.

(** A raster of 2 by 2 pixels turned by a quarter: its rotation terms are
    not zero. *)
Definition turned_dataset : Dataset :=
  {| RasterXSize := 2;
     RasterYSize := 2;
     GeoTransform := (0, 1, -1, 0, 1, 1);
     NoDataValue := None;
     Band1 := fun _ _ => 0%Z |}.

(** A [land_use] object with counts and a cover that make sense. *)
Definition sound_land_use (land_use : LandUse) : Prop :=
  (0 <= valid_urban_pixels land_use <= urban_pixels land_use)%Z
  /\ (0 < urban_pixels land_use)%Z
  /\ 0 <= urban_cover land_use <= 100.

(** ** Binary64 arithmetic

    The floats of Python are the binary64 numbers of IEEE 754.  A number is
    a rational, an infinity or NaN; an operation gives the exact result
    rounded to the nearest number with 53 bits, ties to even, with the
    subnormal numbers below [2 ^ -1022] and an infinity from [2 ^ 1024] on.
    The sign of a zero is not kept: [-0.0 == 0.0], and no operation used
    below tells them apart (a division by either raises). *)

Module Binary64.

Inductive float : Type :=
| Fin (q : Q)
| PInf
| NInf
| NaN.

(** [floor (log2 |x|)], for [x] other than zero. *)
Definition ilog2 (x : Q) : Z :=
  let k := (Z.log2 (Z.abs (Qnum x)) - Z.log2 (Zpos (Qden x)))%Z in
  if Qle_bool (2 ^ k) (Qabs x) then k else (k - 1)%Z.

(** The exponent of the unit in the last place at [x]: 53 bits, and never
    below the exponent of the least subnormal number. *)
Definition ulp_exponent (x : Q) : Z := Z.max (ilog2 x - 52) (-1074).

(** Rounding to nearest, ties to even, with no bound on the exponent
    above. *)
Definition rnd (x : Q) : Q :=
  if Qeq_bool x 0 then 0
  else
    let e := ulp_exponent x in
    Qred (inject_Z (Py.round (x / 2 ^ e)) * 2 ^ e).

(** The binary64 number of an exact result: what rounds to [2 ^ 1024] or
    beyond is an infinity. *)
Definition fl (x : Q) : float :=
  let y := rnd x in
  if Qle_bool (2 ^ 1024) y then PInf
  else if Qle_bool y (- 2 ^ 1024) then NInf
  else Fin y.

Definition is_zero (x : float) : bool :=
  match x with
  | Fin q => Qeq_bool q 0
  | _ => false
  end.

Definition opp (x : float) : float :=
  match x with
  | Fin q => Fin (- q)
  | PInf => NInf
  | NInf => PInf
  | NaN => NaN
  end.

(** [abs(x)]. *)
Definition abs (x : float) : float :=
  match x with
  | Fin q => Fin (Qabs q)
  | PInf => PInf
  | NInf => PInf
  | NaN => NaN
  end.

(** [x + y]. *)
Definition add (x y : float) : float :=
  match x, y with
  | NaN, _ => NaN
  | _, NaN => NaN
  | Fin a, Fin b => fl (a + b)
  | PInf, NInf => NaN
  | NInf, PInf => NaN
  | PInf, _ => PInf
  | _, PInf => PInf
  | NInf, _ => NInf
  | _, NInf => NInf
  end.

(** [x - y]. *)
Definition sub (x y : float) : float := add x (opp y).

(** The infinity with the sign of [q], for [q] other than zero. *)
Definition inf_of_sign (q : Q) : float :=
  if Qle_bool 0 q then PInf else NInf.

(** [x * y]. *)
Definition mul (x y : float) : float :=
  match x, y with
  | NaN, _ => NaN
  | _, NaN => NaN
  | Fin a, Fin b => fl (a * b)
  | Fin a, PInf => if Qeq_bool a 0 then NaN else inf_of_sign a
  | Fin a, NInf => if Qeq_bool a 0 then NaN else inf_of_sign (- a)
  | PInf, Fin b => if Qeq_bool b 0 then NaN else inf_of_sign b
  | NInf, Fin b => if Qeq_bool b 0 then NaN else inf_of_sign (- b)
  | PInf, PInf => PInf
  | NInf, NInf => PInf
  | PInf, NInf => NInf
  | NInf, PInf => NInf
  end.

(** [x / y]: Python raises on a divisor that is zero, whatever [x] is. *)
Definition div (x y : float) : result float :=
  if is_zero y then Raise ZeroDivisionError
  else
    Ok match x, y with
       | NaN, _ => NaN
       | _, NaN => NaN
       | Fin a, Fin b => fl (a / b)
       | Fin _, _ => Fin 0
       | PInf, Fin b => inf_of_sign b
       | NInf, Fin b => inf_of_sign (- b)
       | _, _ => NaN
       end.

(** [x < y]: false when either is NaN. *)
Definition ltb (x y : float) : bool :=
  match x, y with
  | NaN, _ => false
  | _, NaN => false
  | Fin a, Fin b => negb (Qle_bool b a)
  | Fin _, PInf => true
  | Fin _, NInf => false
  | PInf, _ => false
  | NInf, NInf => false
  | NInf, _ => true
  end.

(** [min(a, b)] and [max(a, b)]: the first argument unless the second is
    strictly smaller (larger). *)
Definition min (a b : float) : float := if ltb b a then b else a.
Definition max (a b : float) : float := if ltb a b then b else a.

(** The conversion of an [int] operand of a float operation: correctly
    rounded, and an [OverflowError] for an [int] beyond the range. *)
Definition of_int (n : Z) : result float :=
  match fl (inject_Z n) with
  | Fin q => Ok (Fin q)
  | _ => Raise OverflowError
  end.

(** [x * n] and [x / n] for an [int] [n]. *)
Definition mul_int (x : float) (n : Z) : result float :=
  (let? y := of_int n in Ok (mul x y))%result.

Definition div_int (x : float) (n : Z) : result float :=
  (let? y := of_int n in div x y)%result.

(** [round(x)] with one argument: the nearest integer, ties to even;
    [OverflowError] on an infinity and [ValueError] on NaN. *)
Definition round (x : float) : result Z :=
  match x with
  | Fin q => Ok (Py.round q)
  | PInf => Raise OverflowError
  | NInf => Raise OverflowError
  | NaN => Raise ValueError
  end.

End Binary64.

(** ** osgeo_utils.py: GdalCommonUtils, in binary64

    [get_envelope] and [get_reading_window] with every operation rounded as
    Python rounds it.  The geotransform of a dataset holds finite numbers;
    the box asked for may hold any float. *)

Module GdalCommonUtils.

Import Binary64.

Definition Envelope : Type := (float * float * float * float)%type.

Definition get_envelope (dataset : Dataset) : result Envelope :=
  let '(c, a, b, f, d, e) := GeoTransform dataset in
  let '(c, a, b, f, d, e) := (Fin c, Fin a, Fin b, Fin f, Fin d, Fin e) in
  let t := 0%Z in
  let col := 0%Z in
  let row := 0%Z in
  (let? a_col := mul_int a (col + t) in
   let? b_row := mul_int b (row + t) in
   let? d_col := mul_int d (col + t) in
   let? e_row := mul_int e (row + t) in
   let env_a := (add (add a_col b_row) c, add (add d_col e_row) f) in
   let col := RasterXSize dataset in
   let row := RasterYSize dataset in
   let? a_col := mul_int a (col + t) in
   let? b_row := mul_int b (row + t) in
   let? d_col := mul_int d (col + t) in
   let? e_row := mul_int e (row + t) in
   let env_b := (add (add a_col b_row) c, add (add d_col e_row) f) in
   let min_x := min (fst env_a) (fst env_b) in
   let min_y := min (snd env_a) (snd env_b) in
   let max_x := max (fst env_a) (fst env_b) in
   let max_y := max (snd env_a) (snd env_b) in
   Ok (min_x, min_y, max_x, max_y))%result.

Definition get_reading_window (dataset : Dataset) (bbox : Envelope)
  : result PixelWindow :=
  (let? envelope := get_envelope dataset in
   let w := RasterXSize dataset in
   let h := RasterYSize dataset in
   let '(data_ul_x, data_lr_y, data_lr_x, data_ul_y) := envelope in
   let? res_x := div_int (abs (sub data_ul_x data_lr_x)) w in
   let? res_y := div_int (abs (sub data_ul_y data_lr_y)) h in
   let '(ul_x, lr_y, lr_x, ul_y) := bbox in
   let? top := div (sub data_ul_y ul_y) res_y in
   let? top := round top in
   let? left_ := div (sub ul_x data_ul_x) res_x in
   let? left_ := round left_ in
   let? bottom := div (sub data_ul_y lr_y) res_y in
   let? bottom := round bottom in
   let? right_ := div (sub lr_x data_ul_x) res_x in
   let? right_ := round right_ in
   Ok (left_, top, right_, bottom))%result.

End GdalCommonUtils.
(** ** Facts on the numerics *)

Section NumericFacts.

Lemma div_ok (x y : Q) : ~ y == 0 -> Py.div x y = Ok (x / y).
Proof.
  intros Hy. unfold Py.div.
  destruct (Qeq_bool y 0) eqn:E; [|reflexivity].
  apply Qeq_bool_eq in E. contradiction.
Qed.






Lemma min_le_r (a b : Q) : Py.min a b <= b.
Proof. unfold Py.min. destruct (Qlt_le_dec b a); lra. Qed.


Lemma max_ge_r (a b : Q) : b <= Py.max a b.
Proof. unfold Py.max. destruct (Qlt_le_dec a b); lra. Qed.




End NumericFacts.

(** ** The reading window of a dataset's own envelope *)

Section ReadingWindow.

Lemma inject_Z_pos (n : Z) : (0 < n)%Z -> 0 < inject_Z n.
Proof. intros H. change 0 with (inject_Z 0). now rewrite <- Zlt_Qlt. Qed.




End ReadingWindow.




(** ** The statistics step *)

Section StatisticsFacts.

Lemma shape_map_map {A B} (f : A -> B) (a : list (list A)) :
  Np.shape (map (map f) a) = Np.shape a.
Proof.
  unfold Np.shape. destruct a as [|r a]; simpl; [reflexivity|].
  now rewrite !length_map.
Qed.

Lemma shape_eqb_refl (s : nat * nat) : Np.shape_eqb s s = true.
Proof. unfold Np.shape_eqb. now rewrite !Nat.eqb_refl. Qed.

Lemma zip_with_map_same {A B C} (f : A -> B -> C) (g : A -> B) (l : list A) :
  zip_with f l (map g l) = map (fun x => f x (g x)) l.
Proof. induction l as [|x l IH]; simpl; [reflexivity|now rewrite IH]. Qed.

Lemma mask_all_outside (rs_raster : Raster) :
  Np.setitem rs_raster
    (Np.invert (Np.eq_scalar (all_outside rs_raster) 1)) 0
  = Ok (all_outside rs_raster).
Proof.
  unfold Np.setitem, Np.invert, Np.eq_scalar, all_outside.
  rewrite !shape_map_map, shape_eqb_refl. f_equal.
  rewrite !map_map, zip_with_map_same.
  apply map_ext. intros row.
  rewrite !map_map, zip_with_map_same.
  apply map_ext. intros x. reflexivity.
Qed.

Lemma count_nonzero_all_false {A} (f : A -> bool) (a : list (list A)) :
  (forall x, f x = false) -> Np.count_nonzero (map (map f) a) = 0%Z.
Proof.
  intros Hf. induction a as [|row a IH]; simpl; [reflexivity|].
  rewrite IH, Z.add_0_r.
  induction row as [|x row IHrow]; simpl; [reflexivity|].
  now rewrite Hf.
Qed.

Lemma count_urban_all_outside (rs_raster : Raster) :
  Np.count_nonzero (Np.gt_zero (all_outside rs_raster)) = 0%Z.
Proof.
  unfold Np.gt_zero, all_outside. rewrite map_map.
  erewrite map_ext by (intros row; apply map_map).
  now apply count_nonzero_all_false.
Qed.

(** Whatever the raster, no urban pixel left under the footprint mask
    makes the division of the cover raise. *)
Lemma urban_statistics_no_urban_pixel (rs_raster gm_raster masked : Raster) :
  Np.setitem rs_raster (Np.invert (Np.eq_scalar gm_raster 1)) 0
  = Ok masked ->
  Np.count_nonzero (Np.gt_zero masked) = 0%Z ->
  urban_statistics rs_raster gm_raster = Raise ZeroDivisionError.
Proof.
  intros Hmask Hcount. unfold urban_statistics.
  rewrite Hmask. cbn [rbind]. rewrite Hcount. reflexivity.
Qed.

End StatisticsFacts.

(** C1 (the code does not do this).  With a footprint mask that is outside
    everywhere the merged raster reaches the statistics with no urban pixel,
    and the handler's division
    [(100.0 * count_of_valid_urban_pixels) / count_of_urban_pixels] raises
    [ZeroDivisionError]: nothing guards it. *)
Theorem urban_cover_division_unguarded (rs_raster : Raster) :
  urban_statistics rs_raster (all_outside rs_raster) = Raise ZeroDivisionError.
Proof.
  apply (urban_statistics_no_urban_pixel _ _ (all_outside rs_raster)).
  - apply mask_all_outside.
  - apply count_urban_all_outside.
Qed.

(** The same on the 4x4 windows of the end-to-end example under a footprint
    mask with nothing burned. *)
Example statistics_step_outside_mask :
  statistics_step sen2cor_valid_classes sigpac_valid_classes
    Scene.cm_window Scene.lu_window Scene.outside_mask
  = Raise ZeroDivisionError.
Proof. reflexivity. Qed.

(** C2 (as amended).  On the 4x4 cloud-mask window
    [[4,4,1,1],[4,4,1,1],[2,2,2,2],[2,2,2,2]] with cloud codes {2,4}, a
    land-use window of zeros with urban codes {0,5} and a footprint mask over
    the whole grid, the statistics step gives 16 urban pixels, 12 valid urban
    pixels (the four pixels of code 1 are not cloud-valid) and a cover of
    75. *)
Theorem end_to_end_example :
  statistics_are
    (statistics_step [2; 4]%Z [0; 5]%Z
       Scene.cm_window Scene.lu_window Scene.full_mask)
    16 12 75.
Proof. vm_compute. repeat split. Qed.

(** The same with the classes the handler uses. *)
Example end_to_end_example_default_classes :
  statistics_are
    (statistics_step sen2cor_valid_classes sigpac_valid_classes
       Scene.cm_window Scene.lu_window Scene.full_mask)
    16 12 75.
Proof. vm_compute. repeat split. Qed.

(** C2, as stated, fails: the step does not give 16 valid urban pixels and a
    cover of 100. *)
Lemma end_to_end_example_not_full_cover :
  ~ statistics_are
      (statistics_step [2; 4]%Z [0; 5]%Z
         Scene.cm_window Scene.lu_window Scene.full_mask)
      16 16 100.
Proof. vm_compute. intros (_ & H & _). discriminate H. Qed.

(** ** The handler: inversion of the monad *)

Section MonadFacts.

Lemma bind_ok {A B} (m : M A) (k : A -> M B) (w w' : World) (b : B) :
  bind m k w = (Ok b, w') ->
  exists a w1, m w = (Ok a, w1) /\ k a w1 = (Ok b, w').
Proof.
  unfold bind. destruct (m w) as [[a|e] w1]; intros H.
  - now exists a, w1.
  - discriminate H.
Qed.

Lemma lift_ok {A} (r : result A) (w w' : World) (a : A) :
  lift r w = (Ok a, w') -> r = Ok a /\ w' = w.
Proof. unfold lift. intros H. now inversion H. Qed.

Lemma ret_ok {A} (a b : A) (w w' : World) :
  ret a w = (Ok b, w') -> a = b /\ w = w'.
Proof. unfold ret. intros H. now inversion H. Qed.

Lemma rbind_ok {A B} (r : result A) (k : A -> result B) (b : B) :
  rbind r k = Ok b -> exists a, r = Ok a /\ k a = Ok b.
Proof. destruct r as [a|e]; simpl; intros H; [now exists a|discriminate H]. Qed.

End MonadFacts.

(** C4.  When the polygon of the land-use envelope and the polygon of the
    cloud-mask envelope do not intersect, the handler returns at once with
    status 200 and the message "Input data do not intersect", which is not
    the response of a processed item; the world is as before: no call to S3,
    no file and no object written, no statistics computed. *)
Theorem no_overlap_short_circuit
  (gdal : Gdal) (environ : gmap string string) (event : StacItem)
  (inputs : Inputs) (w : World) :
  open_inputs gdal environ event = Ok inputs ->
  Ogr.Intersects (envelope_geometry (in_lu_dataset inputs))
                 (envelope_geometry (in_cm_dataset inputs)) = false ->
  lambda_handler gdal environ event w = (Ok no_intersection, w)
  /\ statusCode no_intersection = 200%Z
  /\ no_intersection <> ok_response.
Proof.
  intros Hopen Hapart. split; [|split; [reflexivity|discriminate]].
  unfold lambda_handler, bind, lift. rewrite Hopen.
  unfold process_inputs.
  destruct (get_envelope (in_cm_dataset inputs)) as [[[cm0 cm1] cm2] cm3].
  now rewrite Hapart.
Qed.

Lemma no_overlap_short_circuit_witness :
  lambda_handler (Fake.gdal Scene.cm_dataset Scene.far_lu_dataset)
                 Scene.environ Scene.event Scene.empty_world
  = (Ok no_intersection, Scene.empty_world)
  /\ statusCode no_intersection = 200%Z
  /\ no_intersection <> ok_response.
Proof.
  refine (no_overlap_short_circuit
            (Fake.gdal Scene.cm_dataset Scene.far_lu_dataset)
            Scene.environ Scene.event
            {| in_output_folder := "s3://results/out";
               in_grid_names := ["30TXM"; "30TWM"]%string;
               in_message_obj := Scene.event;
               in_geometry := msg_geometry Scene.event;
               in_cm_dataset := Scene.cm_dataset;
               in_lu_dataset := Scene.far_lu_dataset |}
            Scene.empty_world _ _).
  - vm_compute. reflexivity.
  - vm_compute. reflexivity.
Defined.

(** C10.  The no-data values that the cloud-mask and the land-use dataset
    declare do not reach the outcome: with any other no-data values the
    handler returns the same response and leaves the same world, so the same
    [urban_pixels], [valid_urban_pixels] and [urban_cover] are stored. *)
Theorem no_data_noninterference
  (no_data : string -> option Q) (gdal : Gdal)
  (environ : gmap string string) (event : StacItem) (w : World) :
  lambda_handler (declare_no_data no_data gdal) environ event w
  = lambda_handler gdal environ event w.
Proof.
  unfold lambda_handler, bind, lift, open_inputs.
  repeat match goal with
         | |- context [PyList.getitem ?d ?k] =>
             destruct (PyList.getitem d k); cbn [rbind]; [|reflexivity]
         end.
  cbn [Open declare_no_data CoordinateTransformation].
  destruct (Open gdal _) as [cm_dataset|]; cbn [rbind]; [|reflexivity].
  destruct (Open gdal _) as [lu_dataset|]; cbn [rbind]; [|reflexivity].
  destruct cm_dataset, lu_dataset. reflexivity.
Qed.

(** ** The handler: what it stores *)

Section StoredDocument.

Lemma write_then_upload (Filename Bucket Key : string) (item : StacItem)
  (w w1 w2 : World) :
  write_json Filename item w = (Ok tt, w1) ->
  s3_upload_file Filename Bucket Key w1 = (Ok tt, w2) ->
  s3_objects w2 !! (Bucket, Key) = Some item.
Proof.
  unfold write_json, s3_upload_file. intros Hw Hu.
  inversion Hw; subst w1; clear Hw. cbn in Hu.
  rewrite lookup_insert_eq in Hu. inversion Hu; subst w2; clear Hu.
  cbn. apply lookup_insert_eq.
Qed.

End StoredDocument.

(** One step of a run that went well: a lifted computation gave a value. *)
Ltac lifted_step H :=
  let Hs := fresh "Hs" in
  apply bind_ok in H as (? & ? & Hs & H);
  lazymatch type of Hs with lift _ _ = _ => idtac end;
  apply lift_ok in Hs as [_ ->];
  repeat match type of H with
         | context [match ?x with (_, _) => _ end] => is_var x; destruct x
         end.

(** C3 (as amended).  When the handler returns the response of a processed
    item, the object it has put under the path of the item in the output
    folder carries a [land_use] whose [aoi_extent] is the envelope of the
    cloud-mask dataset, as [get_envelope] gives it. *)
Theorem stored_aoi_extent_is_cloud_mask_envelope
  (gdal : Gdal) (environ : gmap string string) (event : StacItem)
  (w w' : World) :
  lambda_handler gdal environ event w = (Ok ok_response, w') ->
  exists inputs bucket_name prefix_path item land_use,
    open_inputs gdal environ event = Ok inputs
    /\ FileUtils.parse_s3_path
         (PyStr.path_join (in_output_folder inputs)
                          (msg_id (in_message_obj inputs) ++ ".json"))
       = Ok (bucket_name, prefix_path)
    /\ s3_objects w' !! (bucket_name, prefix_path) = Some item
    /\ msg_land_use item = Some land_use
    /\ aoi_extent land_use
       = envelope_list (get_envelope (in_cm_dataset inputs)).
Proof.
  intros Hrun. unfold lambda_handler in Hrun.
  apply bind_ok in Hrun as (inputs & w0 & Hopen & Hrun).
  apply lift_ok in Hopen as [Hopen ->].
  exists inputs. unfold process_inputs in Hrun.
  destruct (get_envelope (in_cm_dataset inputs))
    as [[[cm0 cm1] cm2] cm3] eqn:Hcm.
  destruct (negb _); [discriminate Hrun|].
  apply bind_ok in Hrun as ([[[aoi0 aoi1] aoi2] aoi3] & w1 & _ & Hrun).
  repeat lifted_step Hrun.
  apply bind_ok in Hrun as ([] & w2 & Hwrite & Hrun).
  apply bind_ok in Hrun as ([bucket_name prefix_path] & w3 & Hparse & Hrun).
  apply lift_ok in Hparse as [Hparse ->].
  apply bind_ok in Hrun as ([] & w4 & Hupload & Hrun).
  inversion Hrun; subst w4; clear Hrun.
  eexists bucket_name, prefix_path, _, _.
  split; [exact Hopen|]. split; [exact Hparse|].
  split; [exact (write_then_upload _ _ _ _ _ _ _ Hwrite Hupload)|].
  split; reflexivity.
Qed.

Lemma stored_aoi_extent_is_cloud_mask_envelope_witness :
  exists inputs bucket_name prefix_path item land_use,
    open_inputs Scene.gdal Scene.environ Scene.event = Ok inputs
    /\ FileUtils.parse_s3_path
         (PyStr.path_join (in_output_folder inputs)
                          (msg_id (in_message_obj inputs) ++ ".json"))
       = Ok (bucket_name, prefix_path)
    /\ s3_objects
         (snd (lambda_handler Scene.gdal Scene.environ Scene.event
                 Scene.empty_world))
       !! (bucket_name, prefix_path) = Some item
    /\ msg_land_use item = Some land_use
    /\ aoi_extent land_use
       = envelope_list (get_envelope (in_cm_dataset inputs)).
Proof.
  apply (stored_aoi_extent_is_cloud_mask_envelope
           Scene.gdal Scene.environ Scene.event Scene.empty_world).
  vm_compute. reflexivity.
Defined.

(** C3, as stated, fails.  In the scene the residual AOI has the clamped
    extent [(120, 200, 140, 240)], and the item the handler stores has the
    [aoi_extent] [[100, 200, 140, 240]], the envelope of the whole cloud-mask
    tile. *)
Lemma stored_aoi_extent_is_not_residual_extent :
  let run :=
    lambda_handler Scene.gdal Scene.environ Scene.event Scene.empty_world in
  open_inputs Scene.gdal Scene.environ Scene.event = Ok Scene.inputs
  /\ fst run = Ok ok_response
  /\ fst (residual_aoi_extent Scene.inputs Scene.empty_world)
     = Ok (120, 200, 140, 240)
  /\ exists item land_use,
       s3_objects (snd run)
         !! ("results"%string, "out/S2A_30TXM_20210101_0_L2A.json"%string)
       = Some item
       /\ msg_land_use item = Some land_use
       /\ aoi_extent land_use = [100; 200; 140; 240]
       /\ aoi_extent land_use <> envelope_list (120, 200, 140, 240)
       /\ ~ Forall2 Qeq (aoi_extent land_use)
                        (envelope_list (120, 200, 140, 240)).
Proof.
  cbv zeta. split; [vm_compute; reflexivity|].
  split; [vm_compute; reflexivity|].
  split; [vm_compute; reflexivity|].
  eexists _, _. split; [vm_compute; reflexivity|].
  split; [reflexivity|]. split; [reflexivity|].
  split; [discriminate|].
  cbn. intros H. inversion H as [|? ? ? ? Hhd _]. discriminate Hhd.
Qed.

(** ** The loop over the grid names *)

Section Reconciliation.

Lemma extends_refl (w : World) : extends w w [].
Proof. unfold extends. now rewrite app_nil_r. Qed.

Lemma extends_trans (w1 w2 w3 : World) (n1 n2 : list Call) :
  extends w1 w2 n1 -> extends w2 w3 n2 -> extends w1 w3 (n1 ++ n2).
Proof.
  unfold extends. intros (H1 & H2 & H3) (H4 & H5 & H6).
  rewrite H4, H5, H6, H1, H2, H3. now rewrite app_assoc.
Qed.

(** [exist_s3_path] lists objects at most; it fetches none. *)
Lemma exist_s3_path_calls (s3_path : string) (w : World) :
  exists new,
    extends w (snd (FileUtils.exist_s3_path s3_path w)) new
    /\ forall b k, ~ In (get_object b k) new.
Proof.
  unfold FileUtils.exist_s3_path, bind, lift.
  destruct (FileUtils.parse_s3_path s3_path) as [[b k]|e]; cbn.
  - exists [list_objects_v2 1 b k]. split; [now unfold extends|].
    intros b' k' [H|[]]. discriminate H.
  - exists []. split; [apply extends_refl|]. intros b' k' [].
Qed.

(** Its answer does not depend on the trace of calls. *)
Lemma exist_s3_path_result (s3_path : string) (w w' : World) :
  s3_objects w' = s3_objects w ->
  fst (FileUtils.exist_s3_path s3_path w')
  = fst (FileUtils.exist_s3_path s3_path w).
Proof.
  intros Hs. unfold FileUtils.exist_s3_path, bind, lift.
  destruct (FileUtils.parse_s3_path s3_path) as [[b k]|e]; cbn; [|reflexivity].
  now rewrite Hs.
Qed.

End Reconciliation.

(** C5.  In the iteration of a grid name whose item name is the identifier
    of the item itself the running AOI stays as it is (or the iteration
    raises, when the path of the item cannot be parsed), and no object is
    fetched from S3: the calls made are no [get_object], whatever objects the
    output folder holds. *)
Theorem own_tile_is_no_neighbour
  (output_folder item_id grid_name : string)
  (aoi_geometry : Geometry) (w : World) :
  item_name_of item_id grid_name = item_id ->
  let run :=
    subtract_processed_tile output_folder item_id grid_name aoi_geometry w in
  (fst run = Ok aoi_geometry \/ exists e, fst run = Raise e)
  /\ exists new,
       extends w (snd run) new /\ forall b k, ~ In (get_object b k) new.
Proof.
  intros Hown. cbv zeta. unfold subtract_processed_tile.
  rewrite Hown, String.eqb_refl. cbn [negb].
  destruct (exist_s3_path_calls (item_path_of output_folder item_id) w)
    as (new & Hext & Hnew).
  unfold bind.
  destruct (FileUtils.exist_s3_path (item_path_of output_folder item_id) w)
    as [[found|e] w1]; cbn in *.
  - split; [now left|]. now exists new.
  - split; [right; now exists e|]. now exists new.
Qed.

Lemma own_tile_is_no_neighbour_witness :
  let run :=
    subtract_processed_tile "s3://results/out" Scene.item_id "30TXM"
      [(120, 200, 140, 240)] Scene.world_with_own_item in
  (fst run = Ok [(120, 200, 140, 240)] \/ exists e, fst run = Raise e)
  /\ exists new,
       extends Scene.world_with_own_item (snd run) new
       /\ forall b k, ~ In (get_object b k) new.
Proof.
  apply (own_tile_is_no_neighbour "s3://results/out" Scene.item_id "30TXM"
           [(120, 200, 140, 240)] Scene.world_with_own_item).
  reflexivity.
Defined.

(** ** Geometry: what a difference leaves lies within what it is taken from *)

Section GeometryWithin.

Lemma Qltb_true (a b : Q) : Ogr.Qltb a b = true <-> a < b.
Proof.
  unfold Ogr.Qltb. rewrite negb_true_iff.
  destruct (Qle_bool b a) eqn:E.
  - apply Qle_bool_iff in E. split; [discriminate|lra].
  - split; [intros _|reflexivity].
    apply Qnot_le_lt. intros H. apply Qle_bool_iff in H. congruence.
Qed.

Lemma Qltb_false (a b : Q) : Ogr.Qltb a b = false <-> b <= a.
Proof.
  pose proof (Qltb_true a b) as H.
  destruct (Ogr.Qltb a b).
  - split; [discriminate|]. intros Hle.
    assert (a < b) by now apply H. lra.
  - split; [intros _|reflexivity].
    apply Qnot_lt_le. intros Hlt. apply H in Hlt. discriminate Hlt.
Qed.

Lemma Qle_bool_false (a b : Q) : Qle_bool a b = false <-> b < a.
Proof.
  split.
  - intros E. apply Qnot_le_lt. intros H. apply Qle_bool_iff in H. congruence.
  - intros H. destruct (Qle_bool a b) eqn:E; [|reflexivity].
    apply Qle_bool_iff in E. lra.
Qed.

End GeometryWithin.

(** Booleans of the geometry as order facts, and [min]/[max] by cases. *)
Ltac order_facts :=
  repeat match goal with
         | H : _ && _ = true |- _ => apply andb_true_iff in H as [? ?]
         | H : _ && _ = false |- _ => apply andb_false_iff in H as [?|?]
         | H : Ogr.Qltb _ _ = true |- _ => apply Qltb_true in H
         | H : Ogr.Qltb _ _ = false |- _ => apply Qltb_false in H
         | H : Qle_bool _ _ = true |- _ => apply Qle_bool_iff in H
         | H : Qle_bool _ _ = false |- _ => apply Qle_bool_false in H
         end.

Ltac min_max_cases :=
  unfold Py.min, Py.max in *;
  repeat match goal with
         | |- context [Qlt_le_dec ?a ?b] => destruct (Qlt_le_dec a b)
         | H : context [Qlt_le_dec ?a ?b] |- _ => destruct (Qlt_le_dec a b)
         end.

Section DifferenceWithin.

Lemma box_diff_within (n r r' : Box) (p : Q * Q) :
  In r' (Ogr.box_diff n r) -> Ogr.box_has r' p -> Ogr.box_has r p.
Proof.
  destruct r as [[[x1 y1] x2] y2], n as [[[u1 v1] u2] v2], p as [px py].
  unfold Ogr.box_diff, Ogr.axis_overlap.
  destruct (_ && _) eqn:Hov.
  - apply andb_true_iff in Hov as [Hx Hy].
    destruct (Ogr.Qltb x1 x2) eqn:Ex, (Ogr.Qltb y1 y2) eqn:Ey;
      destruct (Ogr.Qltb x1 u1) eqn:E1, (Ogr.Qltb u2 x2) eqn:E2,
               (Ogr.Qltb y1 v1) eqn:E3, (Ogr.Qltb v2 y2) eqn:E4;
      order_facts; cbn [app In];
      intros Hin; repeat destruct Hin as [Hin|Hin]; try contradiction;
      subst r'; unfold Ogr.box_has; cbn [fst snd]; intros (? & ? & ? & ?);
      min_max_cases; repeat split; lra.
  - intros [<-|[]]. trivial.
Qed.

Lemma flat_map_box_diff_within (n : Box) (g : Geometry) :
  Ogr.Within (flat_map (Ogr.box_diff n) g) g.
Proof.
  intros p (r' & Hin & Hp). apply in_flat_map in Hin as (r & Hr & Hin).
  exists r. split; [assumption|]. now apply (box_diff_within n r r').
Qed.

Lemma Within_refl (g : Geometry) : Ogr.Within g g.
Proof. now intros p. Qed.

Lemma Within_trans (g h k : Geometry) :
  Ogr.Within g h -> Ogr.Within h k -> Ogr.Within g k.
Proof. intros H1 H2 p Hp. auto. Qed.

Lemma Difference_within (g h : Geometry) : Ogr.Within (Ogr.Difference g h) g.
Proof.
  unfold Ogr.Difference. revert g.
  induction h as [|n h IH]; intros g; cbn [fold_left].
  - apply Within_refl.
  - eapply Within_trans; [apply IH|apply flat_map_box_diff_within].
Qed.

Lemma subtract_extent_within (aoi_geometry : Geometry) (temp_env : Envelope) :
  Ogr.Within (subtract_extent aoi_geometry temp_env) aoi_geometry.
Proof.
  unfold subtract_extent. destruct temp_env as [[[e0 e1] e2] e3].
  destruct (Ogr.Intersects _ _).
  - apply Difference_within.
  - apply Within_refl.
Qed.

(** One iteration leaves an AOI within the one it got. *)
Lemma subtract_processed_tile_within
  (output_folder item_id grid_name : string)
  (aoi_geometry aoi_geometry' : Geometry) (w w' : World) :
  subtract_processed_tile output_folder item_id grid_name aoi_geometry w
  = (Ok aoi_geometry', w') ->
  Ogr.Within aoi_geometry' aoi_geometry.
Proof.
  unfold subtract_processed_tile. intros Hrun.
  apply bind_ok in Hrun as (? & w1 & _ & Hrun).
  destruct (negb _).
  - apply bind_ok in Hrun as (found & w2 & _ & Hrun).
    destruct found.
    + repeat (apply bind_ok in Hrun as (? & ? & _ & Hrun);
              repeat match type of Hrun with
                     | context [match ?x with (_, _) => _ end] =>
                         is_var x; destruct x
                     end).
      apply ret_ok in Hrun as [<- _]. apply subtract_extent_within.
    + apply ret_ok in Hrun as [<- _]. apply Within_refl.
  - apply ret_ok in Hrun as [<- _]. apply Within_refl.
Qed.

Lemma subtract_processed_tiles_within
  (output_folder item_id : string) (grid_names : list string)
  (aoi_geometry aoi_geometry' : Geometry) (w w' : World) :
  subtract_processed_tiles output_folder item_id grid_names aoi_geometry w
  = (Ok aoi_geometry', w') ->
  Ogr.Within aoi_geometry' aoi_geometry.
Proof.
  unfold subtract_processed_tiles.
  revert aoi_geometry w.
  induction grid_names as [|grid_name grid_names IH];
    intros aoi_geometry w Hrun; cbn [for_each] in Hrun.
  - apply ret_ok in Hrun as [<- _]. apply Within_refl.
  - apply bind_ok in Hrun as (aoi1 & w1 & Hstep & Hrun).
    eapply Within_trans; [exact (IH _ _ Hrun)|].
    exact (subtract_processed_tile_within _ _ _ _ _ _ _ Hstep).
Qed.

End DifferenceWithin.

(** C6.  After any number of iterations of the loop over the grid names,
    and so at its end, the running AOI lies within the AOI the loop started
    from; the handler starts it from the intersection of the polygon of the
    cloud-mask envelope and the polygon of the land-use envelope.  The AOI
    left may be empty and may have several parts. *)
Theorem residual_aoi_within_candidate
  (output_folder item_id : string) (grid_names : list string)
  (cm_geometry lu_geometry aoi_geometry : Geometry)
  (iterations : nat) (w w' : World) :
  subtract_processed_tiles output_folder item_id
    (firstn iterations grid_names)
    (Ogr.Intersection cm_geometry lu_geometry) w
  = (Ok aoi_geometry, w') ->
  Ogr.Within aoi_geometry (Ogr.Intersection cm_geometry lu_geometry).
Proof. apply subtract_processed_tiles_within. Qed.

(** ** Geometry: the area a sequence of differences leaves *)

Section Spans.

Lemma span_split (w : option (Q * Q)) (lo hi t : Q) :
  Ogr.span w lo hi
  == Ogr.span w lo (Py.min hi t) + Ogr.span w (Py.max lo t) hi.
Proof.
  destruct w as [[A B]|]; unfold Ogr.span; min_max_cases; lra.
Qed.

Lemma span_nonpos (w : option (Q * Q)) (lo hi : Q) :
  hi <= lo -> Ogr.span w lo hi == 0.
Proof.
  intros H. destruct w as [[A B]|]; unfold Ogr.span; min_max_cases; lra.
Qed.

Lemma span_narrow_x (n : Box) (w : option Box) (lo hi : Q) :
  let '(u1, v1, u2, v2) := n in
  Ogr.span (Ogr.x_window (Ogr.narrow n w)) lo hi
  == Ogr.span (Ogr.x_window w) (Py.max lo u1) (Py.min hi u2).
Proof.
  destruct n as [[[u1 v1] u2] v2], w as [[[[A A'] B] B']|];
    unfold Ogr.narrow, Ogr.box_meet, Ogr.x_window, Ogr.span;
    min_max_cases; lra.
Qed.

Lemma span_narrow_y (n : Box) (w : option Box) (lo hi : Q) :
  let '(u1, v1, u2, v2) := n in
  Ogr.span (Ogr.y_window (Ogr.narrow n w)) lo hi
  == Ogr.span (Ogr.y_window w) (Py.max lo v1) (Py.min hi v2).
Proof.
  destruct n as [[[u1 v1] u2] v2], w as [[[[A A'] B] B']|];
    unfold Ogr.narrow, Ogr.box_meet, Ogr.y_window, Ogr.span;
    min_max_cases; lra.
Qed.

(** A side that [[u1, u2]] takes something from is what lies before [u1],
    what lies within [[u1, u2]] and what lies after [u2]. *)
Lemma span_three (w : option (Q * Q)) (x1 x2 u1 u2 : Q) :
  Ogr.axis_overlap x1 x2 u1 u2 = true ->
  Ogr.span w x1 x2
  == (if Ogr.Qltb x1 u1 then Ogr.span w x1 u1 else 0)
     + Ogr.span w (Py.max x1 u1) (Py.min x2 u2)
     + (if Ogr.Qltb u2 x2 then Ogr.span w u2 x2 else 0).
Proof.
  unfold Ogr.axis_overlap. intros Hov.
  rewrite (span_split w x1 x2 u1).
  rewrite (span_split w (Py.max x1 u1) x2 u2).
  assert (E1 : Ogr.span w x1 (Py.min x2 u1)
               == if Ogr.Qltb x1 u1 then Ogr.span w x1 u1 else 0).
  { destruct (Ogr.Qltb x1 x2) eqn:Ex, (Ogr.Qltb x1 u1) eqn:E1;
      order_facts.
    - assert (Py.min x2 u1 = u1) as ->; [|reflexivity].
      revert Hov. min_max_cases; intros; try reflexivity; lra.
    - apply span_nonpos. min_max_cases; lra.
    - lra.
    - apply span_nonpos. min_max_cases; lra. }
  assert (E2 : Ogr.span w (Py.max (Py.max x1 u1) u2) x2
               == if Ogr.Qltb u2 x2 then Ogr.span w u2 x2 else 0).
  { destruct (Ogr.Qltb x1 x2) eqn:Ex, (Ogr.Qltb u2 x2) eqn:E2;
      order_facts.
    - assert (Py.max (Py.max x1 u1) u2 = u2) as ->; [|reflexivity].
      revert Hov. min_max_cases; intros; try reflexivity; lra.
    - apply span_nonpos. min_max_cases; lra.
    - lra.
    - apply span_nonpos. min_max_cases; lra. }
  rewrite E1, E2. ring.
Qed.

(** A side that [[u1, u2]] takes nothing from has nothing within it. *)
Lemma span_apart (w : option (Q * Q)) (x1 x2 u1 u2 : Q) :
  Ogr.axis_overlap x1 x2 u1 u2 = false ->
  Ogr.span w (Py.max x1 u1) (Py.min x2 u2) == 0.
Proof.
  unfold Ogr.axis_overlap. intros Hov. apply span_nonpos.
  destruct (Ogr.Qltb x1 x2) eqn:Ex; order_facts; min_max_cases; lra.
Qed.

End Spans.

Section Contents.

Lemma content_nil (w : option Box) : Ogr.content w [] = 0.
Proof. reflexivity. Qed.

Lemma content_cons (w : option Box) (r : Box) (g : Geometry) :
  Ogr.content w (r :: g) = Ogr.box_content w r + Ogr.content w g.
Proof. reflexivity. Qed.

Lemma content_app (w : option Box) (g h : Geometry) :
  Ogr.content w (g ++ h) == Ogr.content w g + Ogr.content w h.
Proof.
  induction g as [|r g IH].
  - rewrite content_nil. cbn [app]. ring.
  - rewrite <- app_comm_cons, !content_cons, IH. ring.
Qed.

Lemma content_if (w : option Box) (c : bool) (r : Box) :
  Ogr.content w (if c then [r] else [])
  == if c then Ogr.box_content w r else 0.
Proof. destruct c; rewrite ?content_cons, ?content_nil; ring. Qed.

(** The area of a box within a window is the area of the box without [n]
    and the area of the box within [n], both within the window. *)
Lemma box_diff_content (w : option Box) (n r : Box) :
  Ogr.content w (Ogr.box_diff n r) + Ogr.box_content (Ogr.narrow n w) r
  == Ogr.box_content w r.
Proof.
  pose proof (span_narrow_x n w) as Hnx.
  pose proof (span_narrow_y n w) as Hny.
  destruct r as [[[x1 y1] x2] y2], n as [[[u1 v1] u2] v2].
  unfold Ogr.box_diff.
  assert (Hmeet : Ogr.box_content (Ogr.narrow (u1, v1, u2, v2) w)
                                  (x1, y1, x2, y2)
                  == Ogr.span (Ogr.x_window w) (Py.max x1 u1) (Py.min x2 u2)
                     * Ogr.span (Ogr.y_window w) (Py.max y1 v1)
                                (Py.min y2 v2)).
  { unfold Ogr.box_content. now rewrite Hnx, Hny. }
  rewrite Hmeet. clear Hmeet Hnx Hny.
  destruct (Ogr.axis_overlap x1 x2 u1 u2) eqn:Hx;
    [destruct (Ogr.axis_overlap y1 y2 v1 v2) eqn:Hy|]; cbn [andb].
  - rewrite !content_app, !content_if.
    unfold Ogr.box_content.
    pose proof (span_three (Ogr.x_window w) x1 x2 u1 u2 Hx) as Hx3.
    pose proof (span_three (Ogr.y_window w) y1 y2 v1 v2 Hy) as Hy3.
    destruct (Ogr.Qltb x1 u1), (Ogr.Qltb u2 x2),
             (Ogr.Qltb y1 v1), (Ogr.Qltb v2 y2);
      cbv iota in *; rewrite Hx3, Hy3; ring.
  - rewrite (span_apart _ _ _ _ _ Hy), content_cons, content_nil. ring.
  - rewrite (span_apart _ _ _ _ _ Hx), content_cons, content_nil. ring.
Qed.

Lemma flat_map_box_diff_content (w : option Box) (n : Box) (g : Geometry) :
  Ogr.content w (flat_map (Ogr.box_diff n) g)
  == Ogr.content w g - Ogr.content (Ogr.narrow n w) g.
Proof.
  induction g as [|r g IH]; cbn [flat_map].
  - rewrite !content_nil. ring.
  - rewrite content_app, !content_cons, IH.
    rewrite <- (box_diff_content w n r). ring.
Qed.

(** A region that does not meet [n] has no area within [n]. *)
Lemma box_apart_content (w : option Box) (n r : Box) :
  Ogr.box_nonempty (Ogr.box_meet r n) = false ->
  Ogr.box_content (Ogr.narrow n w) r == 0.
Proof.
  pose proof (span_narrow_x n w) as Hnx.
  pose proof (span_narrow_y n w) as Hny.
  destruct r as [[[x1 y1] x2] y2], n as [[[u1 v1] u2] v2].
  unfold Ogr.box_nonempty, Ogr.box_meet, Ogr.box_content. intros Hempty.
  rewrite Hnx, Hny. order_facts.
  - rewrite (span_nonpos _ (Py.max x1 u1)) by lra. ring.
  - rewrite (span_nonpos _ (Py.max y1 v1)) by lra. ring.
Qed.

Lemma apart_content (w : option Box) (n : Box) (g : Geometry) :
  Ogr.Intersects g [n] = false -> Ogr.content (Ogr.narrow n w) g == 0.
Proof.
  unfold Ogr.Intersects. induction g as [|r g IH]; cbn [existsb]; intros H.
  - now rewrite content_nil.
  - apply orb_false_iff in H as [Hr Hg].
    rewrite orb_false_r in Hr.
    rewrite content_cons, (box_apart_content w n r Hr), (IH Hg). ring.
Qed.

Lemma create_geometry_from_bbox_box (e0 e1 e2 e3 : Q) :
  create_geometry_from_bbox e0 e1 e2 e3 = [extent_box (e0, e1, e2, e3)].
Proof. reflexivity. Qed.

(** What one neighbour's extent takes off the area within a window. *)
Lemma subtract_extent_content
  (w : option Box) (aoi_geometry : Geometry) (temp_env : Envelope) :
  Ogr.content w (subtract_extent aoi_geometry temp_env)
  == Ogr.content w aoi_geometry
     - Ogr.content (Ogr.narrow (extent_box temp_env) w) aoi_geometry.
Proof.
  unfold subtract_extent. destruct temp_env as [[[e0 e1] e2] e3].
  rewrite create_geometry_from_bbox_box.
  destruct (Ogr.Intersects _ _) eqn:Hmeet.
  - apply flat_map_box_diff_content.
  - rewrite (apart_content w _ _ Hmeet). ring.
Qed.

End Contents.

Section InclusionExclusion.

Lemma span_window_eq (A B A' B' lo hi : Q) :
  A == A' -> B == B' ->
  Ogr.span (Some (A, B)) lo hi == Ogr.span (Some (A', B')) lo hi.
Proof. intros HA HB. unfold Ogr.span. min_max_cases; lra. Qed.

Lemma box_content_window_eq (w w' : option Box) (r : Box) :
  Ogr.window_eq w w' -> Ogr.box_content w r == Ogr.box_content w' r.
Proof.
  destruct r as [[[x1 y1] x2] y2].
  destruct w as [[[[a1 b1] c1] d1]|], w' as [[[[a2 b2] c2] d2]|];
    cbn [Ogr.window_eq]; try contradiction.
  - intros (Ha & Hb & Hc & Hd).
    unfold Ogr.box_content, Ogr.x_window, Ogr.y_window.
    now rewrite (span_window_eq a1 c1 a2 c2), (span_window_eq b1 d1 b2 d2).
  - reflexivity.
Qed.

Lemma content_window_eq (w w' : option Box) (g : Geometry) :
  Ogr.window_eq w w' -> Ogr.content w g == Ogr.content w' g.
Proof.
  intros Hw. induction g as [|r g IH].
  - reflexivity.
  - now rewrite !content_cons, IH, (box_content_window_eq w w' r Hw).
Qed.

Lemma narrow_window_eq (n : Box) (w w' : option Box) :
  Ogr.window_eq w w' ->
  Ogr.window_eq (Ogr.narrow n w) (Ogr.narrow n w').
Proof.
  destruct n as [[[u1 v1] u2] v2].
  destruct w as [[[[a1 b1] c1] d1]|], w' as [[[[a2 b2] c2] d2]|];
    cbn [Ogr.window_eq Ogr.narrow Ogr.box_meet]; try contradiction.
  - intros (Ha & Hb & Hc & Hd). repeat split; min_max_cases; lra.
  - intros _. repeat split; reflexivity.
Qed.

Lemma narrow_comm (n m : Box) (w : option Box) :
  Ogr.window_eq (Ogr.narrow n (Ogr.narrow m w))
                (Ogr.narrow m (Ogr.narrow n w)).
Proof.
  destruct n as [[[u1 v1] u2] v2], m as [[[p1 q1] p2] q2].
  destruct w as [[[[a b] c] d]|];
    cbn [Ogr.window_eq Ogr.narrow Ogr.box_meet];
    repeat split; min_max_cases; lra.
Qed.

Lemma remaining_window_eq (ns : list Box) (w w' : option Box) (g : Geometry) :
  Ogr.window_eq w w' -> Ogr.remaining ns w g == Ogr.remaining ns w' g.
Proof.
  revert w w'. induction ns as [|n ns IH]; intros w w' Hw;
    cbn [Ogr.remaining].
  - now apply content_window_eq.
  - rewrite (IH w w' Hw).
    rewrite (IH _ _ (narrow_window_eq n w w' Hw)). reflexivity.
Qed.

(** What one neighbour's extent takes off the area outside other boxes. *)
Lemma remaining_subtract_extent
  (ns : list Box) (w : option Box) (g : Geometry) (temp_env : Envelope) :
  Ogr.remaining ns w (subtract_extent g temp_env)
  == Ogr.remaining ns w g
     - Ogr.remaining ns (Ogr.narrow (extent_box temp_env) w) g.
Proof.
  revert w. induction ns as [|m ns IH]; intros w; cbn [Ogr.remaining].
  - apply subtract_extent_content.
  - rewrite !IH.
    rewrite (remaining_window_eq ns _ _ g
               (narrow_comm (extent_box temp_env) m w)).
    ring.
Qed.

(** The area the neighbours leave, by inclusion and exclusion. *)
Lemma subtract_extents_content
  (envs : list Envelope) (w : option Box) (g : Geometry) :
  Ogr.content w (fold_left subtract_extent envs g)
  == Ogr.remaining (map extent_box envs) w g.
Proof.
  revert w g. induction envs as [|temp_env envs IH]; intros w g;
    cbn [fold_left map Ogr.remaining].
  - reflexivity.
  - rewrite IH. apply remaining_subtract_extent.
Qed.

Lemma remaining_permutation (ns ns' : list Box) (g : Geometry) :
  Permutation ns ns' ->
  forall w, Ogr.remaining ns w g == Ogr.remaining ns' w g.
Proof.
  induction 1 as [|n ns ns' _ IH|n m ns|ns1 ns2 ns3 _ IH1 _ IH2];
    intros w; cbn [Ogr.remaining].
  - reflexivity.
  - now rewrite !IH.
  - rewrite (remaining_window_eq ns _ _ g (narrow_comm m n w)). ring.
  - now rewrite IH1, IH2.
Qed.

Lemma GetArea_content (g : Geometry) : Ogr.GetArea g = Ogr.content None g.
Proof.
  induction g as [|[[[x1 y1] x2] y2] g IH]; [reflexivity|].
  rewrite content_cons, <- IH. reflexivity.
Qed.

(** The area left does not depend on the order of the extents. *)
Lemma subtract_extents_area_permutation
  (envs envs' : list Envelope) (g : Geometry) :
  Permutation envs envs' ->
  Ogr.GetArea (fold_left subtract_extent envs g)
  == Ogr.GetArea (fold_left subtract_extent envs' g).
Proof.
  intros Hperm.
  rewrite (GetArea_content (fold_left subtract_extent envs g)).
  rewrite (GetArea_content (fold_left subtract_extent envs' g)).
  rewrite (subtract_extents_content envs None g).
  rewrite (subtract_extents_content envs' None g).
  apply remaining_permutation. now apply Permutation_map.
Qed.

End InclusionExclusion.

(** ** The loop over the grid names as a fold over the extents fetched *)

Section LoopAsFold.

Lemma exist_s3_path_ok (s3_path : string) (found : bool) (w w' : World) :
  FileUtils.exist_s3_path s3_path w = (Ok found, w') ->
  exists bucket_name prefix_path,
    FileUtils.parse_s3_path s3_path = Ok (bucket_name, prefix_path)
    /\ found = existsb (fun key => String.eqb key prefix_path)
                 (listed_keys (s3_objects w) 1 bucket_name prefix_path)
    /\ s3_objects w' = s3_objects w.
Proof.
  unfold FileUtils.exist_s3_path, bind, lift.
  destruct (FileUtils.parse_s3_path s3_path) as [[b k]|e]; cbn;
    [|discriminate].
  intros H. inversion H. now exists b, k.
Qed.

Lemma s3_get_object_ok (Bucket Key : string) (item : StacItem) (w w' : World) :
  s3_get_object Bucket Key w = (Ok item, w') ->
  s3_objects w !! (Bucket, Key) = Some item
  /\ s3_objects w' = s3_objects w.
Proof.
  unfold s3_get_object, bind, lift, log. cbn.
  destruct (s3_objects w !! (Bucket, Key)); intros H; inversion H.
  split; reflexivity.
Qed.

Lemma index_ok {A} (l : list A) (i : nat) (a : A) :
  PyList.index l i = Ok a -> nth_error l i = Some a.
Proof.
  unfold PyList.index. destruct (nth_error l i); intros H; now inversion H.
Qed.

(** An iteration that does not raise takes off the AOI the extents that
    [processed_extents] reads off the objects, and writes no object. *)
Lemma subtract_processed_tile_ok
  (output_folder item_id grid_name : string)
  (aoi_geometry aoi_geometry' : Geometry) (w w' : World) :
  subtract_processed_tile output_folder item_id grid_name aoi_geometry w
  = (Ok aoi_geometry', w') ->
  aoi_geometry'
  = fold_left subtract_extent
      (processed_extents (s3_objects w) output_folder item_id grid_name)
      aoi_geometry
  /\ s3_objects w' = s3_objects w.
Proof.
  unfold subtract_processed_tile, processed_extents. intros Hrun.
  apply bind_ok in Hrun as (found0 & w1 & Hfirst & Hrun).
  apply exist_s3_path_ok in Hfirst as (b0 & k0 & _ & _ & Hw1).
  destruct (negb _).
  - apply bind_ok in Hrun as (found & w2 & Hsecond & Hrun).
    apply exist_s3_path_ok in Hsecond as (b & k & Hparse & Hfound & Hw2).
    rewrite Hw1 in Hfound. rewrite Hparse, <- Hfound.
    destruct found.
    + apply bind_ok in Hrun as ([b' k'] & w3 & Hparse' & Hrun).
      apply lift_ok in Hparse' as [Hparse' ->].
      rewrite Hparse in Hparse'. injection Hparse' as <- <-.
      apply bind_ok in Hrun as (item_obj & w4 & Hget & Hrun).
      apply s3_get_object_ok in Hget as [Hget Hw4].
      rewrite Hw2, Hw1 in Hget. rewrite Hget.
      apply bind_ok in Hrun as (land_use & w5 & Hland & Hrun).
      apply lift_ok in Hland as [Hland ->].
      destruct (msg_land_use item_obj) as [land_use'|]; [|discriminate Hland].
      injection Hland as ->.
      apply bind_ok in Hrun as (e0 & w6 & H0 & Hrun).
      apply lift_ok in H0 as [H0 ->]. apply index_ok in H0.
      apply bind_ok in Hrun as (e1 & w7 & H1 & Hrun).
      apply lift_ok in H1 as [H1 ->]. apply index_ok in H1.
      apply bind_ok in Hrun as (e2 & w8 & H2 & Hrun).
      apply lift_ok in H2 as [H2 ->]. apply index_ok in H2.
      apply bind_ok in Hrun as (e3 & w9 & H3 & Hrun).
      apply lift_ok in H3 as [H3 ->]. apply index_ok in H3.
      apply ret_ok in Hrun as [<- <-].
      destruct (aoi_extent land_use) as [|a0 [|a1 [|a2 [|a3 rest]]]];
        try discriminate.
      cbn in H0, H1, H2, H3.
      injection H0 as ->. injection H1 as ->.
      injection H2 as ->. injection H3 as ->.
      split; [reflexivity|]. now rewrite Hw4, Hw2, Hw1.
    + apply ret_ok in Hrun as [<- <-].
      split; [reflexivity|]. now rewrite Hw2, Hw1.
  - apply ret_ok in Hrun as [<- <-]. now split.
Qed.

Lemma subtract_processed_tiles_ok
  (output_folder item_id : string) (grid_names : list string)
  (aoi_geometry aoi_geometry' : Geometry) (w w' : World) :
  subtract_processed_tiles output_folder item_id grid_names aoi_geometry w
  = (Ok aoi_geometry', w') ->
  aoi_geometry'
  = fold_left subtract_extent
      (flat_map (processed_extents (s3_objects w) output_folder item_id)
                grid_names)
      aoi_geometry.
Proof.
  unfold subtract_processed_tiles. revert aoi_geometry w.
  induction grid_names as [|grid_name grid_names IH];
    intros aoi_geometry w Hrun; cbn [for_each flat_map] in *.
  - now apply ret_ok in Hrun as [<- _].
  - apply bind_ok in Hrun as (aoi1 & w1 & Hstep & Hrun).
    apply subtract_processed_tile_ok in Hstep as [-> Hw1].
    apply IH in Hrun. rewrite Hw1 in Hrun.
    now rewrite fold_left_app.
Qed.

End LoopAsFold.

(** C7.  From one candidate AOI and one set of objects in the output
    folder, the loop over the grid names in one order and in any other order
    leaves residual AOIs of the same area.  (Coordinates are rationals here,
    so the areas are equal and not only close.) *)
Theorem residual_area_independent_of_order
  (output_folder item_id : string) (grid_names grid_names' : list string)
  (aoi_geometry residual residual' : Geometry) (w w1 w2 : World) :
  Permutation grid_names grid_names' ->
  subtract_processed_tiles output_folder item_id grid_names aoi_geometry w
  = (Ok residual, w1) ->
  subtract_processed_tiles output_folder item_id grid_names' aoi_geometry w
  = (Ok residual', w2) ->
  Ogr.GetArea residual == Ogr.GetArea residual'.
Proof.
  intros Hperm Hrun Hrun'.
  apply subtract_processed_tiles_ok in Hrun as ->.
  apply subtract_processed_tiles_ok in Hrun' as ->.
  apply subtract_extents_area_permutation.
  now apply Permutation_flat_map.
Qed.

Lemma residual_area_independent_of_order_witness :
  Ogr.GetArea
    (Scene.geometry_of
       (subtract_processed_tiles "s3://results/out" Scene.item_id
          ["30TWM"; "30TXN"]%string Scene.candidate_aoi
          Scene.world_with_two))
  == Ogr.GetArea
       (Scene.geometry_of
          (subtract_processed_tiles "s3://results/out" Scene.item_id
             ["30TXN"; "30TWM"]%string Scene.candidate_aoi
             Scene.world_with_two)).
Proof.
  apply (residual_area_independent_of_order
           "s3://results/out" Scene.item_id
           ["30TWM"; "30TXN"]%string ["30TXN"; "30TWM"]%string
           Scene.candidate_aoi _ _ Scene.world_with_two
           (snd (subtract_processed_tiles "s3://results/out" Scene.item_id
                   ["30TWM"; "30TXN"]%string Scene.candidate_aoi
                   Scene.world_with_two))
           (snd (subtract_processed_tiles "s3://results/out" Scene.item_id
                   ["30TXN"; "30TWM"]%string Scene.candidate_aoi
                   Scene.world_with_two))).
  - apply perm_swap.
  - vm_compute. reflexivity.
  - vm_compute. reflexivity.
Defined.

Lemma residual_aoi_within_candidate_witness :
  Ogr.Within
    (Scene.geometry_of
       (subtract_processed_tiles "s3://results/out" Scene.item_id
          (firstn 2 ["30TXM"; "30TWM"]%string)
          (Ogr.Intersection (envelope_geometry Scene.cm_dataset)
                            (envelope_geometry Scene.lu_dataset))
          (Scene.world_with [130; 0; 1000; 1000])))
    (Ogr.Intersection (envelope_geometry Scene.cm_dataset)
                      (envelope_geometry Scene.lu_dataset)).
Proof.
  apply (residual_aoi_within_candidate
           "s3://results/out" Scene.item_id ["30TXM"; "30TWM"]%string
           (envelope_geometry Scene.cm_dataset)
           (envelope_geometry Scene.lu_dataset) _ 2
           (Scene.world_with [130; 0; 1000; 1000])
           (snd (subtract_processed_tiles "s3://results/out" Scene.item_id
                   (firstn 2 ["30TXM"; "30TWM"]%string)
                   (Ogr.Intersection (envelope_geometry Scene.cm_dataset)
                                     (envelope_geometry Scene.lu_dataset))
                   (Scene.world_with [130; 0; 1000; 1000])))).
  vm_compute. reflexivity.
Defined.

(** The residual AOIs of the two orders in the scene of the witness. *)
Example residuals_of_two_orders :
  Scene.geometry_of
    (subtract_processed_tiles "s3://results/out" Scene.item_id
       ["30TWM"; "30TXN"]%string Scene.candidate_aoi Scene.world_with_two)
  = [(130, 200, 140, 210); (120, 230, 125, 240)]
  /\ Scene.geometry_of
       (subtract_processed_tiles "s3://results/out" Scene.item_id
          ["30TXN"; "30TWM"]%string Scene.candidate_aoi Scene.world_with_two)
     = [(120, 230, 125, 240); (130, 200, 140, 210)].
Proof. split; vm_compute; reflexivity. Qed.

(** C9 (the code does not do this).  When the item of a neighbour tile
    covers the whole candidate AOI, the residual AOI is empty, its envelope
    is all zero, the clamped extent is [(120, 200, 0, 0)], and the windows
    [get_reading_window] computes from it lie outside both grids of 4x4
    pixels. *)
Theorem reading_window_of_empty_aoi_out_of_bounds :
  let w := Scene.world_with [0; 0; 1000; 1000] in
  fst (residual_aoi_extent Scene.inputs w) = Ok (120, 200, 0, 0)
  /\ get_reading_window Scene.lu_dataset (120, 200, 0, 0)
     = Ok (0, 24, -12, 4)%Z
  /\ ~ in_bounds Scene.lu_dataset (0, 24, -12, 4)%Z
  /\ get_reading_window Scene.cm_dataset (120, 200, 0, 0)
     = Ok (2, 24, -10, 4)%Z
  /\ ~ in_bounds Scene.cm_dataset (2, 24, -10, 4)%Z.
Proof.
  cbv zeta. split; [vm_compute; reflexivity|].
  split; [vm_compute; reflexivity|].
  split; [unfold in_bounds; cbn; lia|].
  split; [vm_compute; reflexivity|].
  unfold in_bounds; cbn; lia.
Qed.

(** ** Reading windows of a residual AOI that is not empty *)

Section RoundMonotone.





End RoundMonotone.

Section WindowInBounds.


End WindowInBounds.

Section ResidualBoxes.











End ResidualBoxes.





(** ** get_reading_window: when it raises, and boxes on pixel boundaries *)

Section ReadingWindowEdges.


Lemma inject_Z_zero (n : Z) : inject_Z n == 0 <-> n = 0%Z.
Proof.
  unfold Qeq, inject_Z. cbn. split; intros H; lia.
Qed.



End ReadingWindowEdges.




(** ** The masks by membership, and the merged raster cell by cell *)

Section MaskFacts.

Lemma zip_with_map_map {A B C D} (f : B -> C -> D) (g : A -> B) (h : A -> C)
  (l : list A) :
  zip_with f (map g l) (map h l) = map (fun x => f (g x) (h x)) l.
Proof. induction l as [|x l IH]; cbn; [reflexivity|now rewrite IH]. Qed.

Lemma logical_or_maps (g h : Z -> bool) (a : Raster) :
  Np.logical_or (map (map g) a) (map (map h) a)
  = map (map (fun v => g v || h v)) a.
Proof.
  unfold Np.logical_or. rewrite zip_with_map_map.
  apply map_ext. intros row. apply zip_with_map_map.
Qed.

Lemma fold_logical_or (classes : list Z) (g : Z -> bool) (a : Raster) :
  fold_left (fun mask code => Np.logical_or mask (Np.eq_scalar a code))
            classes (map (map g) a)
  = map (map (fun v => g v || in_classes classes v)) a.
Proof.
  revert g. induction classes as [|code classes IH]; intros g;
    cbn [fold_left].
  - apply map_ext. intros row. apply map_ext. intros v.
    unfold in_classes. cbn. now rewrite orb_false_r.
  - unfold Np.eq_scalar at 2. rewrite logical_or_maps, IH.
    apply map_ext. intros row. apply map_ext. intros v.
    unfold in_classes. cbn [existsb]. now rewrite orb_assoc.
Qed.

Lemma fold_logical_or_zeros (classes : list Z) (a : Raster) :
  fold_left (fun mask code => Np.logical_or mask (Np.eq_scalar a code))
            classes (Np.zeros_like a)
  = map (map (in_classes classes)) a.
Proof. unfold Np.zeros_like. rewrite fold_logical_or. reflexivity. Qed.

End MaskFacts.

(** The cloud mask is true exactly at the pixels whose code is one of the
    valid classes, and has the rows and cells of the raster; no valid class
    gives the mask that is false everywhere. *)
Theorem cloud_mask_is_membership (cm_raster : Raster) (valid_classes : list Z) :
  get_valid_sen2cor_cloud_mask cm_raster valid_classes
  = map (map (in_classes valid_classes)) cm_raster.
Proof.
  unfold get_valid_sen2cor_cloud_mask. apply fold_logical_or_zeros.
Qed.

(** The urban mask is true exactly at the pixels whose land-use code is one
    of the valid classes. *)
Theorem urban_mask_is_membership (lu_raster : Raster) (valid_classes : list Z) :
  get_valid_sigpac_urban_mask lu_raster valid_classes
  = map (map (in_classes valid_classes)) lu_raster.
Proof.
  unfold get_valid_sigpac_urban_mask. apply fold_logical_or_zeros.
Qed.

Section MergeFacts.

Lemma has_shape_shape {A} (rows cols : nat) (a : list (list A)) :
  has_shape rows cols a ->
  Np.shape a = (rows, match rows with O => O | S _ => cols end).
Proof.
  intros [Hrows Hall]. unfold Np.shape. rewrite Hrows. f_equal.
  destruct a as [|row a]; cbn in *; subst rows; [reflexivity|].
  now inversion Hall.
Qed.

Lemma has_shape_map {A B} (f : A -> B) (rows cols : nat) (a : list (list A)) :
  has_shape rows cols a -> has_shape rows cols (map (map f) a).
Proof.
  intros [Hrows Hall]. split; [now rewrite length_map|].
  apply List.Forall_forall. intros row Hin.
  apply in_map_iff in Hin as (row' & <- & Hin').
  rewrite length_map. rewrite List.Forall_forall in Hall. now apply Hall.
Qed.

Lemma stretch_same {A} (a : list A) : Np.stretch (length a) a = a.
Proof. unfold Np.stretch. now rewrite Nat.eqb_refl. Qed.

Lemma map_stretch_rows {A} (cols : nat) (a : list (list A)) :
  Forall (fun row => length row = cols) a -> map (Np.stretch cols) a = a.
Proof.
  intros Hall. induction Hall as [|row a Hrow _ IH]; cbn; [reflexivity|].
  rewrite IH. f_equal. rewrite <- Hrow. apply stretch_same.
Qed.

Lemma broadcast_dim_same (n : nat) : Np.broadcast_dim n n = Ok n.
Proof. unfold Np.broadcast_dim. now rewrite Nat.eqb_refl. Qed.

(** On two masks of one shape [&] is cell by cell. *)
Lemma bitwise_and_same_shape (rows cols : nat) (a b : Mask) :
  has_shape rows cols a -> has_shape rows cols b ->
  Np.bitwise_and a b = Ok (zip_with (zip_with andb) a b).
Proof.
  intros Ha Hb. unfold Np.bitwise_and.
  rewrite (has_shape_shape _ _ _ Ha), (has_shape_shape _ _ _ Hb).
  cbn [fst snd]. rewrite !broadcast_dim_same. cbn [rbind].
  destruct Ha as [Hra Hca], Hb as [Hrb Hcb].
  destruct rows as [|rows].
  - apply length_zero_iff_nil in Hra, Hrb. subst a b. reflexivity.
  - rewrite (map_stretch_rows cols a Hca), (map_stretch_rows cols b Hcb).
    rewrite <- Hra at 1. rewrite <- Hrb at 1.
    now rewrite !stretch_same.
Qed.

Lemma has_shape_zip_with {A B C} (f : A -> B -> C) (rows cols : nat)
  (a : list (list A)) (b : list (list B)) :
  has_shape rows cols a -> has_shape rows cols b ->
  has_shape rows cols (zip_with (zip_with f) a b).
Proof.
  intros [Hra Hca] [Hrb Hcb]. subst rows. revert b Hrb Hcb.
  induction Hca as [|row a Hrow _ IH]; intros [|row' b] Hrb Hcb;
    try discriminate; cbn.
  - split; [reflexivity|constructor].
  - inversion Hcb as [|? ? Hrow' Hcb']; subst.
    injection Hrb as Hrb.
    destruct (IH b Hrb Hcb') as [Hlen Hall].
    split; [cbn; now rewrite Hlen|].
    constructor; [|assumption].
    rewrite length_zip_with. lia.
Qed.

Lemma setitem_same_shape (rows cols : nat) (a : Raster) (m : Mask) (v : Z) :
  has_shape rows cols a -> has_shape rows cols m ->
  Np.setitem a m v
  = Ok (zip_with (zip_with (fun x (b : bool) => if b then v else x)) a m).
Proof.
  intros Ha Hm. unfold Np.setitem.
  rewrite (has_shape_shape _ _ _ Ha), (has_shape_shape _ _ _ Hm).
  now rewrite shape_eqb_refl.
Qed.

Lemma zip_with_map_l {A A' B C} (f : A' -> B -> C) (g : A -> A')
  (l : list A) (k : list B) :
  zip_with f (map g l) k = zip_with (fun x y => f (g x) y) l k.
Proof.
  revert k. induction l as [|x l IH]; intros [|y k]; cbn;
    try reflexivity. now rewrite IH.
Qed.

Lemma zip_with_map_r {A B B' C} (f : A -> B' -> C) (g : B -> B')
  (l : list A) (k : list B) :
  zip_with f l (map g k) = zip_with (fun x y => f x (g y)) l k.
Proof.
  revert k. induction l as [|x l IH]; intros [|y k]; cbn;
    try reflexivity. now rewrite IH.
Qed.

Lemma zip_with_ext_2 {A B C} (f g : A -> B -> C) (l : list A) (k : list B) :
  (forall x y, f x y = g x y) -> zip_with f l k = zip_with g l k.
Proof.
  intros Hfg. revert k. induction l as [|x l IH]; intros [|y k]; cbn;
    try reflexivity. now rewrite IH, Hfg.
Qed.

(** [zip_with f l (zip_with g k l)] in one pass. *)
Lemma zip_with_nested {A B C D} (f : B -> C -> D) (g : A -> B -> C)
  (k : list A) (l : list B) :
  zip_with f l (zip_with g k l) = zip_with (fun x y => f y (g x y)) k l.
Proof.
  revert l. induction k as [|x k IH]; intros [|y l]; cbn;
    try reflexivity. now rewrite IH.
Qed.

Lemma gt_zero_astype_int (m : Mask) : Np.gt_zero (Np.astype_int m) = m.
Proof.
  unfold Np.gt_zero, Np.astype_int. rewrite map_map.
  rewrite <- (map_id m) at 2. apply map_ext. intros row.
  rewrite map_map. rewrite <- (map_id row) at 2.
  apply map_ext. intros []; reflexivity.
Qed.

Lemma astype_int_map {A} (f : A -> bool) (a : list (list A)) :
  Np.astype_int (map (map f) a)
  = map (map (fun v => if f v then 1%Z else 0%Z)) a.
Proof.
  unfold Np.astype_int. rewrite map_map. apply map_ext. intros row.
  apply map_map.
Qed.

End MergeFacts.

(** On a cloud-mask window and a land-use window of one shape the merged
    raster has, cell by cell, 2 where the pixel is urban under a valid cloud
    class, 1 where it is urban otherwise and 0 elsewhere. *)
Theorem merge_valid_pixels_cells
  (cm_classes lu_classes : list Z) (rows cols : nat)
  (cm_raster lu_raster : Raster) :
  has_shape rows cols cm_raster -> has_shape rows cols lu_raster ->
  merge_valid_pixels cm_classes lu_classes cm_raster lu_raster
  = Ok (zip_with (zip_with (merged_cell cm_classes lu_classes))
                 cm_raster lu_raster).
Proof.
  intros Hcm Hlu. unfold merge_valid_pixels.
  unfold get_valid_sen2cor_cloud_mask, get_valid_sigpac_urban_mask.
  rewrite !fold_logical_or_zeros.
  rewrite !gt_zero_astype_int, astype_int_map.
  rewrite (bitwise_and_same_shape rows cols)
    by (now apply has_shape_map).
  cbn [rbind].
  rewrite (setitem_same_shape rows cols)
    by (first [now apply has_shape_map
              |apply has_shape_zip_with; now apply has_shape_map]).
  f_equal.
  rewrite zip_with_map_l, zip_with_map_l, zip_with_map_r.
  rewrite zip_with_nested.
  apply zip_with_ext_2. intros cm_row lu_row.
  rewrite zip_with_map_l, zip_with_map_l, zip_with_map_r.
  rewrite zip_with_nested.
  apply zip_with_ext_2. intros cm lu. unfold merged_cell.
  destruct (in_classes lu_classes lu), (in_classes cm_classes cm);
    reflexivity.
Qed.

Lemma merge_valid_pixels_cells_witness :
  merge_valid_pixels [2; 4]%Z [0; 5]%Z Scene.cm_window Scene.lu_window
  = Ok (zip_with (zip_with (merged_cell [2; 4]%Z [0; 5]%Z))
                 Scene.cm_window Scene.lu_window).
Proof.
  apply (merge_valid_pixels_cells [2; 4]%Z [0; 5]%Z
           example_rows example_cols Scene.cm_window Scene.lu_window).
  - split; [reflexivity|]. repeat constructor.
  - split; [reflexivity|]. repeat constructor.
Defined.

Section CountFacts.

Lemma count_row_bounds (row : list bool) :
  (0 <= fold_right (fun (b : bool) n => if b then n + 1 else n) 0 row
   <= Z.of_nat (length row))%Z.
Proof.
  induction row as [|b row IH]; cbn [fold_right length]; [lia|].
  destruct b; lia.
Qed.

Lemma count_nonzero_bounds (m : Mask) :
  (0 <= Np.count_nonzero m <= array_size m)%Z.
Proof.
  induction m as [|row m IH]; cbn [Np.count_nonzero array_size fold_right];
    [lia|].
  fold (Np.count_nonzero m). fold (array_size m).
  pose proof (count_row_bounds row). lia.
Qed.

Lemma count_row_le {A} (f g : A -> bool) (row : list A) :
  (forall v, f v = true -> g v = true) ->
  (fold_right (fun (b : bool) n => if b then n + 1 else n) 0 (map f row)
   <= fold_right (fun (b : bool) n => if b then n + 1 else n) 0 (map g row))%Z.
Proof.
  intros Hfg. induction row as [|v row IH]; cbn [map fold_right]; [lia|].
  specialize (Hfg v).
  destruct (f v), (g v); try lia; discriminate (Hfg eq_refl).
Qed.

Lemma count_nonzero_le {A} (f g : A -> bool) (a : list (list A)) :
  (forall v, f v = true -> g v = true) ->
  (Np.count_nonzero (map (map f) a) <= Np.count_nonzero (map (map g) a))%Z.
Proof.
  intros Hfg. induction a as [|row a IH];
    cbn [map Np.count_nonzero fold_right]; [lia|].
  fold (Np.count_nonzero (map (map f) a)).
  fold (Np.count_nonzero (map (map g) a)).
  pose proof (count_row_le f g row Hfg). lia.
Qed.

Lemma array_size_map {A B} (f : A -> B) (a : list (list A)) :
  array_size (map (map f) a) = array_size a.
Proof.
  induction a as [|row a IH]; cbn [map array_size fold_right];
    [reflexivity|].
  fold (array_size (map (map f) a)). fold (array_size a).
  now rewrite length_map, IH.
Qed.

Lemma array_size_zip_with {A B C} (f : A -> B -> C)
  (a : list (list A)) (b : list (list B)) :
  (0 <= array_size (zip_with (zip_with f) a b) <= array_size a)%Z.
Proof.
  revert b. induction a as [|row a IH]; intros [|row' b];
    cbn [zip_with array_size fold_right]; try lia.
  - fold (array_size a).
    assert (0 <= array_size a)%Z; [|lia].
    clear. induction a as [|r a IH]; cbn [array_size fold_right]; [lia|].
    fold (array_size a). lia.
  - fold (array_size (zip_with (zip_with f) a b)). fold (array_size a).
    specialize (IH b). rewrite length_zip_with. lia.
Qed.

End CountFacts.

Lemma urban_statistics_counts
  (rs_raster gm_raster : Raster) (urban valid : Z) (cover : Q) :
  urban_statistics rs_raster gm_raster = Ok (urban, valid, cover) ->
  (0 <= valid <= urban)%Z
  /\ (0 < urban <= array_size rs_raster)%Z
  /\ 0 <= cover <= 100.
Proof.
  unfold urban_statistics. intros Hrun.
  apply rbind_ok in Hrun as (masked & Hmask & Hrun).
  apply rbind_ok in Hrun as (c & Hdiv & Hrun).
  injection Hrun as <- <- <-.
  unfold Np.setitem in Hmask.
  destruct (Np.shape_eqb _ _); [|discriminate Hmask].
  injection Hmask as <-.
  set (masked :=
         zip_with (zip_with (fun x (b : bool) => if b then 0%Z else x))
                  rs_raster (Np.invert (Np.eq_scalar gm_raster 1))) in *.
  pose proof (count_nonzero_bounds (Np.eq_scalar masked 2)) as [Hv0 _].
  pose proof (count_nonzero_bounds (Np.gt_zero masked)) as [Hu0 Hu1].
  assert (Hvu : (Np.count_nonzero (Np.eq_scalar masked 2)
                 <= Np.count_nonzero (Np.gt_zero masked))%Z).
  { apply count_nonzero_le. intros v Hv. apply Z.eqb_eq in Hv. now subst v. }
  unfold Np.gt_zero in Hu1 at 2. rewrite array_size_map in Hu1.
  pose proof (array_size_zip_with
                (fun x (b : bool) => if b then 0%Z else x)
                rs_raster (Np.invert (Np.eq_scalar gm_raster 1))) as [_ Hsz].
  fold masked in Hsz.
  set (u := Np.count_nonzero (Np.gt_zero masked)) in *.
  set (v := Np.count_nonzero (Np.eq_scalar masked 2)) in *.
  unfold Py.div in Hdiv.
  destruct (Qeq_bool (inject_Z u) 0) eqn:Ez; [discriminate Hdiv|].
  injection Hdiv as <-.
  assert (Hu : (u <> 0)%Z).
  { intros E. rewrite E in Ez. discriminate Ez. }
  assert (Hupos : 0 < inject_Z u) by (apply inject_Z_pos; lia).
  assert (Hvq : 0 <= inject_Z v).
  { change 0 with (inject_Z 0). now rewrite <- Zle_Qle. }
  assert (Hvuq : inject_Z v <= inject_Z u) by now rewrite <- Zle_Qle.
  repeat split; try lia.
  - apply Qle_shift_div_l; [assumption|]. nra.
  - apply Qle_shift_div_r; [assumption|]. nra.
Qed.

(** When the statistics are computed (the division does not raise), there is
    at least one urban pixel under the footprint, the valid urban pixels are
    no more than the urban pixels, the urban pixels no more than the cells of
    the merged raster, and the cover lies between 0 and 100. *)
Theorem urban_statistics_bounds
  (rs_raster gm_raster : Raster) (urban valid : Z) (cover : Q) :
  urban_statistics rs_raster gm_raster = Ok (urban, valid, cover) ->
  (0 <= valid <= urban)%Z
  /\ (0 < urban <= array_size rs_raster)%Z
  /\ 0 <= cover <= 100.
Proof. exact (urban_statistics_counts rs_raster gm_raster urban valid cover).
Qed.

Lemma urban_statistics_bounds_witness :
  (0 <= 12 <= 16)%Z /\ (0 < 16 <= array_size Scene.lu_window)%Z
  /\ 0 <= (1200 # 16) <= 100.
Proof.
  apply (urban_statistics_bounds
           (zip_with (zip_with (merged_cell [2; 4]%Z [0; 5]%Z))
                     Scene.cm_window Scene.lu_window)
           Scene.full_mask 16 12 (1200 # 16)).
  vm_compute. reflexivity.
Defined.

(** ** The item name of a grid tile *)

Section ItemNames.

Lemma substring_drop (n : nat) (s : string) :
  (String.substring 0 n s ++ PyStr.drop n s)%string = s.
Proof.
  revert s. induction n as [|n IH]; intros s.
  - now destruct s.
  - destruct s as [|c s]; [reflexivity|].
    change (String c (String.substring 0 n s ++ PyStr.drop n s)%string
            = String c s).
    f_equal. apply IH.
Qed.

Lemma substring_of_drop (n m : nat) (s : string) :
  String.substring n m s = String.substring 0 m (PyStr.drop n s).
Proof.
  revert s. induction n as [|n IH]; intros s.
  - now destruct s.
  - destruct s as [|c s]; cbn.
    + now destruct m.
    + apply IH.
Qed.

Lemma drop_drop (n m : nat) (s : string) :
  PyStr.drop m (PyStr.drop n s) = PyStr.drop (n + m) s.
Proof.
  revert s. induction n as [|n IH]; intros s.
  - now destruct s.
  - destruct s as [|c s]; cbn.
    + now destruct m.
    + apply IH.
Qed.

Lemma append_length (x y : string) :
  String.length (x ++ y)%string = (String.length x + String.length y)%nat.
Proof.
  induction x as [|c x IH]; [reflexivity|].
  change (S (String.length (x ++ y)%string)
          = S (String.length x + String.length y)).
  f_equal. apply IH.
Qed.

Lemma append_cancel_l (a x y : string) :
  (a ++ x)%string = (a ++ y)%string -> x = y.
Proof.
  induction a as [|c a IH]; intros H; [exact H|].
  change (String c (a ++ x)%string = String c (a ++ y)%string) in H.
  injection H as H. now apply IH.
Qed.

Lemma append_cancel_r (x y b : string) :
  (x ++ b)%string = (y ++ b)%string -> x = y.
Proof.
  revert y. induction x as [|c x IH]; intros [|d y] H.
  - reflexivity.
  - apply (f_equal String.length) in H. rewrite !append_length in H.
    change (String.length (String d y)) with (S (String.length y)) in H.
    change (String.length "") with 0%nat in H. lia.
  - apply (f_equal String.length) in H. rewrite !append_length in H.
    change (String.length (String c x)) with (S (String.length x)) in H.
    change (String.length "") with 0%nat in H. lia.
  - change (String c (x ++ b)%string = String d (y ++ b)%string) in H.
    injection H as -> H. f_equal. now apply IH.
Qed.

(** An identifier is its first four characters, the next five and the
    rest. *)
Lemma item_id_parts (item_id : string) :
  (PyStr.slice 0 4 item_id ++ PyStr.slice 4 9 item_id
   ++ PyStr.drop 9 item_id)%string = item_id.
Proof.
  change (PyStr.slice 0 4 item_id) with (String.substring 0 4 item_id).
  change (PyStr.slice 4 9 item_id) with (String.substring 4 5 item_id).
  replace (PyStr.drop 9 item_id)
    with (PyStr.drop 5 (PyStr.drop 4 item_id)) by apply (drop_drop 4 5).
  rewrite (substring_of_drop 4 5 item_id).
  now rewrite substring_drop, substring_drop.
Qed.

End ItemNames.

(** The item name made from a grid name is the identifier of the item
    itself exactly when the grid name is characters 4 to 8 of the
    identifier: that grid name, and no other, is passed over by the loop. *)
Theorem own_grid_name_iff (item_id grid_name : string) :
  item_name_of item_id grid_name = item_id
  <-> grid_name = PyStr.slice 4 9 item_id.
Proof.
  unfold item_name_of. split.
  - intros H. rewrite <- (item_id_parts item_id) in H at 3.
    apply append_cancel_l in H. now apply append_cancel_r in H.
  - intros ->. apply item_id_parts.
Qed.

(** ** The reconciliation only reads *)

Section ReadsOnly.

Context {A B : Type} (P : Call -> Prop).

Lemma reads_only_ret (a : A) : reads_only P (ret a).
Proof.
  intros w. exists []. split; [apply extends_refl|constructor].
Qed.

Lemma reads_only_lift (r : result A) : reads_only P (lift r).
Proof.
  intros w. exists []. split; [apply extends_refl|constructor].
Qed.

Lemma reads_only_bind (m : M A) (k : A -> M B) :
  reads_only P m -> (forall a, reads_only P (k a)) ->
  reads_only P (bind m k).
Proof.
  intros Hm Hk w. destruct (Hm w) as (n1 & He1 & Hp1). unfold bind.
  destruct (m w) as [[a|e] w1]; cbn [snd] in *.
  - destruct (Hk a w1) as (n2 & He2 & Hp2).
    exists (n1 ++ n2). split; [now apply (extends_trans w w1)|].
    apply Forall_app. now split.
  - now exists n1.
Qed.

Lemma reads_only_bind_lift (r : result A) (k : A -> M B) :
  (forall a, r = Ok a -> reads_only P (k a)) ->
  reads_only P (bind (lift r) k).
Proof.
  intros Hk w. unfold bind, lift. destruct r as [a|e].
  - apply (Hk a eq_refl).
  - exists []. split; [apply extends_refl|constructor].
Qed.

End ReadsOnly.

Section ReadsOnlyCalls.

Variable P : Call -> Prop.

Lemma reads_only_list_objects_v2 (MaxKeys : nat) (Bucket Prefix : string) :
  P (list_objects_v2 MaxKeys Bucket Prefix) ->
  reads_only P (s3_list_objects_v2 MaxKeys Bucket Prefix).
Proof.
  intros HP w. exists [list_objects_v2 MaxKeys Bucket Prefix].
  split; [now unfold extends|]. now constructor.
Qed.

Lemma reads_only_get_object (Bucket Key : string) :
  P (get_object Bucket Key) -> reads_only P (s3_get_object Bucket Key).
Proof.
  intros HP w. exists [get_object Bucket Key].
  split; [|now constructor].
  unfold s3_get_object, bind, lift, log. cbn.
  destruct (s3_objects w !! (Bucket, Key)); now unfold extends.
Qed.

Lemma reads_only_exist_s3_path (s3_path : string) :
  (forall n b p, P (list_objects_v2 n b p)) ->
  reads_only P (FileUtils.exist_s3_path s3_path).
Proof.
  intros HP. unfold FileUtils.exist_s3_path.
  apply reads_only_bind_lift. intros [b k] _.
  apply reads_only_bind; [now apply reads_only_list_objects_v2|].
  intros keys. apply reads_only_ret.
Qed.

End ReadsOnlyCalls.

Section ReconciliationReads.

Variables output_folder item_id : string.

Lemma neighbour_call_weaken (grid_name : string) (grid_names : list string)
  (c : Call) :
  neighbour_call output_folder item_id grid_names c ->
  neighbour_call output_folder item_id (grid_name :: grid_names) c.
Proof.
  destruct c; cbn; try tauto.
  intros (g & Hin & Hne & Hparse). exists g. now repeat split; [right| |].
Qed.

Lemma subtract_processed_tile_reads
  (grid_name : string) (aoi_geometry : Geometry) :
  reads_only (neighbour_call output_folder item_id [grid_name])
    (subtract_processed_tile output_folder item_id grid_name aoi_geometry).
Proof.
  unfold subtract_processed_tile.
  apply reads_only_bind; [now apply reads_only_exist_s3_path|]. intros _.
  destruct (negb _) eqn:Hown; [|apply reads_only_ret].
  apply negb_true_iff, String.eqb_neq in Hown.
  apply reads_only_bind; [now apply reads_only_exist_s3_path|].
  intros [|]; [|apply reads_only_ret].
  apply reads_only_bind_lift. intros [bucket_name prefix_path] Hparse.
  apply reads_only_bind.
  { apply reads_only_get_object. exists grid_name.
    split; [now left|]. now split. }
  intros item_obj.
  repeat (apply reads_only_bind; [apply reads_only_lift|]; intros ?).
  apply reads_only_ret.
Qed.

End ReconciliationReads.

Lemma subtract_processed_tiles_reads
  (output_folder item_id : string) (grid_names : list string)
  (aoi_geometry : Geometry) :
  reads_only (neighbour_call output_folder item_id grid_names)
    (subtract_processed_tiles output_folder item_id grid_names aoi_geometry).
Proof.
  unfold subtract_processed_tiles. revert aoi_geometry.
  induction grid_names as [|grid_name names IH]; intros aoi_geometry;
    cbn [for_each].
  - apply reads_only_ret.
  - apply reads_only_bind.
    + intros w.
      destruct (subtract_processed_tile_reads output_folder item_id
                  grid_name aoi_geometry w) as (new & Hext & Hall).
      exists new. split; [assumption|].
      eapply List.Forall_impl; [|exact Hall].
      intros c Hc. destruct c; cbn in *; try tauto.
      destruct Hc as (g & [->|[]] & Hne & Hparse).
      exists g. split; [now left|]. now split.
    + intros aoi1 w. destruct (IH aoi1 w) as (new & Hext & Hall).
      exists new. split; [assumption|].
      eapply List.Forall_impl; [|exact Hall].
      intros c. apply neighbour_call_weaken.
Qed.

(** The loop over the grid names writes nothing: it leaves the objects of
    S3 and the local files as they are, and the calls it makes are listings
    and fetches, each fetch being of the item of a grid name of the list
    other than the tile of the item itself. *)
Theorem reconciliation_reads_only
  (output_folder item_id : string) (grid_names : list string)
  (aoi_geometry : Geometry) :
  reads_only (neighbour_call output_folder item_id grid_names)
    (subtract_processed_tiles output_folder item_id grid_names aoi_geometry).
Proof.
  exact (subtract_processed_tiles_reads output_folder item_id grid_names
           aoi_geometry).
Qed.

(** ** The handler writes its own item, or nothing *)

Section KeepsObjects.

Lemma keeps_objects_lift {A} (r : result A) : keeps_objects (lift r).
Proof. now intros w. Qed.

Lemma keeps_objects_reads_only {A} (P : Call -> Prop) (m : M A) :
  reads_only P m -> keeps_objects m.
Proof. intros Hm w. now destruct (Hm w) as (new & (Hobj & _) & _). Qed.

Lemma keeps_objects_bind {A B} (m : M A) (k : A -> M B) :
  keeps_objects m -> (forall a, keeps_objects (k a)) ->
  keeps_objects (bind m k).
Proof.
  intros Hm Hk w. specialize (Hm w). unfold bind.
  destruct (m w) as [[a|e] w1]; cbn [snd] in *; [|assumption].
  now rewrite Hk.
Qed.

Lemma keeps_objects_residual_aoi_extent (inputs : Inputs) :
  keeps_objects (residual_aoi_extent inputs).
Proof.
  unfold residual_aoi_extent. apply keeps_objects_bind.
  - eapply keeps_objects_reads_only, subtract_processed_tiles_reads.
  - intros aoi w. reflexivity.
Qed.

Variables output_folder item_id : string.

Lemma writes_bind {A} (m : M A) (k : A -> M Response) :
  keeps_objects m ->
  (forall a, writes_own_item_at_most output_folder item_id (k a)) ->
  writes_own_item_at_most output_folder item_id (bind m k).
Proof.
  intros Hm Hk w. specialize (Hm w). unfold bind.
  destruct (m w) as [[a|e] w1]; cbn [snd fst] in *; [|now left].
  destruct (Hk a w1) as [Hsame|(Hok & b & p & item & Hparse & Hid & Hput)].
  - left. now rewrite Hsame.
  - right. split; [assumption|]. exists b, p, item. now rewrite Hput, Hm.
Qed.

Lemma writes_ret_no_intersection :
  writes_own_item_at_most output_folder item_id (ret no_intersection).
Proof. intros w. now left. Qed.

(** The last lines: the item into a local file, the file into S3. *)
Lemma writes_upload (temp_file : string) (item : StacItem) :
  msg_id item = item_id ->
  writes_own_item_at_most output_folder item_id
    (bind (write_json temp_file item) (fun _ =>
     bind (lift (FileUtils.parse_s3_path
                   (PyStr.path_join output_folder (item_id ++ ".json"))))
          (fun x => match x with
                    | (bucket_name, prefix_path) =>
                        bind (s3_upload_file temp_file bucket_name
                                             prefix_path)
                             (fun _ => ret ok_response)
                    end))).
Proof.
  intros Hid w. unfold bind, write_json, lift. cbn [fst snd].
  destruct (FileUtils.parse_s3_path _) as [[b p]|e] eqn:Hparse;
    cbn [fst snd]; [|now left].
  unfold s3_upload_file. cbn. rewrite lookup_insert_eq. cbn.
  right. split; [reflexivity|]. now exists b, p, item.
Qed.

End KeepsObjects.

(** Through the binds of [process_inputs], up to its last lines. *)
Ltac writes_steps :=
  repeat first
    [ apply writes_bind;
      [ first [ apply keeps_objects_lift
              | apply keeps_objects_residual_aoi_extent ]
      | intros ? ]
    | match goal with
      | |- context [match ?x with (_, _) => _ end] => is_var x; destruct x
      end ].

Section HandlerWrites.

Lemma process_inputs_writes (gdal : Gdal) (inputs : Inputs) :
  writes_own_item_at_most
    (in_output_folder inputs) (msg_id (in_message_obj inputs))
    (process_inputs gdal inputs).
Proof.
  unfold process_inputs.
  destruct (get_envelope (in_cm_dataset inputs)) as [[[cm0 cm1] cm2] cm3].
  destruct (negb _); [apply writes_ret_no_intersection|].
  writes_steps.
  now apply writes_upload.
Qed.

Lemma open_inputs_ok
  (gdal : Gdal) (environ : gmap string string) (event : StacItem)
  (inputs : Inputs) :
  open_inputs gdal environ event = Ok inputs ->
  environ !! "OUTPUT_S3_FOLDER"%string = Some (in_output_folder inputs)
  /\ in_message_obj inputs = event.
Proof.
  unfold open_inputs. intros H.
  apply rbind_ok in H as (lu_path & _ & H).
  apply rbind_ok in H as (output_folder & Hout & H).
  repeat (apply rbind_ok in H as (? & _ & H)).
  injection H as <-. cbn. split; [|reflexivity].
  unfold PyList.getitem in Hout.
  destruct (environ !! "OUTPUT_S3_FOLDER"%string); now inversion Hout.
Qed.

End HandlerWrites.

(** Whatever the handler returns, it has left the objects of S3 as they
    were or it has returned the OK response and put exactly one object: an
    item with the identifier of the event, under the path of that identifier
    in the output folder.  When it raises, no object was written. *)
Theorem handler_writes_own_item_at_most
  (gdal : Gdal) (environ : gmap string string) (event : StacItem)
  (w : World) :
  let run := lambda_handler gdal environ event w in
  (s3_objects (snd run) = s3_objects w
   \/ (fst run = Ok ok_response
       /\ exists output_folder bucket_name prefix_path item,
            environ !! "OUTPUT_S3_FOLDER"%string = Some output_folder
            /\ FileUtils.parse_s3_path
                 (PyStr.path_join output_folder (msg_id event ++ ".json"))
               = Ok (bucket_name, prefix_path)
            /\ msg_id item = msg_id event
            /\ s3_objects (snd run)
               = <[(bucket_name, prefix_path) := item]> (s3_objects w)))
  /\ (forall e, fst run = Raise e -> s3_objects (snd run) = s3_objects w).
Proof.
  cbv zeta.
  assert (Hmain :
    s3_objects (snd (lambda_handler gdal environ event w)) = s3_objects w
    \/ (fst (lambda_handler gdal environ event w) = Ok ok_response
        /\ exists output_folder bucket_name prefix_path item,
             environ !! "OUTPUT_S3_FOLDER"%string = Some output_folder
             /\ FileUtils.parse_s3_path
                  (PyStr.path_join output_folder (msg_id event ++ ".json"))
                = Ok (bucket_name, prefix_path)
             /\ msg_id item = msg_id event
             /\ s3_objects (snd (lambda_handler gdal environ event w))
                = <[(bucket_name, prefix_path) := item]> (s3_objects w))).
  { unfold lambda_handler, bind, lift.
    destruct (open_inputs gdal environ event) as [inputs|e] eqn:Hopen;
      [|now left].
    apply open_inputs_ok in Hopen as [Hout Hmsg].
    destruct (process_inputs_writes gdal inputs w)
      as [Hsame|(Hok & b & p & item & Hparse & Hid & Hput)].
    - now left.
    - right. split; [assumption|].
      exists (in_output_folder inputs), b, p, item.
      rewrite <- Hmsg. now repeat split. }
  split; [exact Hmain|].
  intros e He. destruct Hmain as [Hsame|[Hok _]]; [assumption|].
  rewrite He in Hok. discriminate Hok.
Qed.

(** ** exist_s3_path finds an object exactly when it is there *)

Section ListedKeys.

Lemma ascii_compare_refl (c : ascii) : Ascii.compare c c = Eq.
Proof.
  pose proof (Ascii.compare_antisym c c) as H.
  destruct (Ascii.compare c c); [reflexivity|discriminate H|discriminate H].
Qed.

Lemma prefix_leb (k key : string) :
  String.prefix k key = true -> String.leb k key = true.
Proof.
  unfold String.leb. revert key.
  induction k as [|c k IH]; intros [|d key] H; try reflexivity.
  - discriminate H.
  - cbn in H. destruct (ascii_dec c d) as [<-|]; [|discriminate H].
    cbn [String.compare]. rewrite ascii_compare_refl. now apply IH.
Qed.

Lemma prefix_refl (k : string) : String.prefix k k = true.
Proof.
  induction k as [|c k IH]; [reflexivity|].
  cbn. destruct (ascii_dec c c); [assumption|contradiction].
Qed.

Lemma in_insert_sorted (x k : string) (l : list string) :
  In x (insert_sorted k l) <-> x = k \/ In x l.
Proof.
  induction l as [|h l IH]; cbn [insert_sorted].
  - cbn. intuition.
  - destruct (String.leb k h); cbn [In]; [intuition|].
    rewrite IH. intuition.
Qed.

Lemma in_sort_keys (x : string) (l : list string) :
  In x (sort_keys l) <-> In x l.
Proof.
  induction l as [|k l IH]; cbn [sort_keys fold_right]; [reflexivity|].
  fold (sort_keys l). rewrite in_insert_sorted, IH. cbn. intuition.
Qed.

(** A key below all others comes first. *)
Lemma hd_sort_keys (k : string) (l : list string) :
  In k l -> (forall x, In x l -> String.leb k x = true) ->
  exists rest, sort_keys l = k :: rest.
Proof.
  induction l as [|a l IH]; intros Hin Hlow; [contradiction|].
  cbn [sort_keys fold_right]. fold (sort_keys l).
  assert (Hlow' : forall x, In x l -> String.leb k x = true)
    by (intros x Hx; apply Hlow; now right).
  destruct (in_dec string_dec k l) as [Hk|Hk].
  - destruct (IH Hk Hlow') as (rest & ->). cbn [insert_sorted].
    destruct (String.leb a k) eqn:Hak.
    + assert (a = k) as ->.
      { apply String.leb_antisym; [assumption|]. apply Hlow. now left. }
      now exists (k :: rest).
    + now exists (insert_sorted a rest).
  - destruct Hin as [->|Hin]; [|contradiction].
    destruct (sort_keys l) as [|h rest] eqn:Hsort; cbn [insert_sorted].
    + now exists [].
    + assert (Hh : In h l).
      { apply in_sort_keys. rewrite Hsort. now left. }
      rewrite (Hlow' h Hh). now exists (h :: rest).
Qed.

(** The keys a listing goes through are the keys of the bucket that start
    with the prefix. *)
Lemma in_listing (objects : gmap (string * string) StacItem)
  (Bucket Prefix key : string) :
  In key
    (map (fun kv : string * string * StacItem => snd (fst kv))
       (List.filter
          (fun kv : string * string * StacItem =>
             String.eqb (fst (fst kv)) Bucket
             && String.prefix Prefix (snd (fst kv)))
          (map_to_list objects)))
  <-> is_Some (objects !! (Bucket, key)) /\ String.prefix Prefix key = true.
Proof.
  rewrite in_map_iff. split.
  - intros ([[b k'] item] & Hkey & Hin). cbn in Hkey. subst k'.
    apply filter_In in Hin as [Hin Htest]. cbn in Htest.
    apply andb_true_iff in Htest as [Hb Hp].
    apply String.eqb_eq in Hb. subst b.
    apply list_elem_of_In, elem_of_map_to_list in Hin.
    split; [now exists item|assumption].
  - intros [[item Hitem] Hp]. exists (Bucket, key, item).
    split; [reflexivity|]. apply filter_In. split.
    + now apply list_elem_of_In, elem_of_map_to_list.
    + cbn. now rewrite String.eqb_refl, Hp.
Qed.

Lemma listed_keys_one (objects : gmap (string * string) StacItem)
  (Bucket Key : string) :
  existsb (fun key => String.eqb key Key) (listed_keys objects 1 Bucket Key)
  = match objects !! (Bucket, Key) with
    | Some _ => true
    | None => false
    end.
Proof.
  unfold listed_keys.
  set (keys := map _ (List.filter _ (map_to_list objects))).
  destruct (objects !! (Bucket, Key)) as [item|] eqn:Hitem.
  - assert (Hin : In Key keys).
    { apply in_listing. split; [now exists item|apply prefix_refl]. }
    assert (Hlow : forall x, In x keys -> String.leb Key x = true).
    { intros x Hx. apply in_listing in Hx as [_ Hp]. now apply prefix_leb. }
    destruct (hd_sort_keys Key keys Hin Hlow) as (rest & ->).
    cbn. now rewrite String.eqb_refl.
  - apply not_true_is_false. intros H.
    apply existsb_exists in H as (x & Hx & Heq).
    apply String.eqb_eq in Heq. subst x.
    assert (Hin : In Key (sort_keys keys)).
    { destruct (sort_keys keys); [contradiction|].
      cbn in Hx. destruct Hx as [->|[]]. now left. }
    apply in_sort_keys, in_listing in Hin as [[item Hsome] _].
    rewrite Hitem in Hsome. discriminate Hsome.
Qed.

End ListedKeys.

(** For a path that parses into a bucket and a key, [exist_s3_path] answers
    [True] exactly when the bucket holds an object under that very key, even
    when other keys of the bucket start with it; it lists and never
    fetches. *)
Theorem exist_s3_path_iff_object
  (s3_path bucket_name prefix_path : string) (w : World) :
  FileUtils.parse_s3_path s3_path = Ok (bucket_name, prefix_path) ->
  FileUtils.exist_s3_path s3_path w
  = (Ok (match s3_objects w !! (bucket_name, prefix_path) with
         | Some _ => true
         | None => false
         end),
     {| s3_objects := s3_objects w;
        local_files := local_files w;
        calls := calls w ++ [list_objects_v2 1 bucket_name prefix_path] |}).
Proof.
  intros Hparse. unfold FileUtils.exist_s3_path, bind, lift.
  rewrite Hparse. cbn. now rewrite listed_keys_one.
Qed.

Lemma exist_s3_path_iff_object_witness :
  FileUtils.exist_s3_path
    "s3://results/out/S2A_30TWM_20210101_0_L2A.json" world_with_longer_key
  = (Ok (match s3_objects world_with_longer_key
               !! ("results"%string,
                   "out/S2A_30TWM_20210101_0_L2A.json"%string) with
         | Some _ => true
         | None => false
         end),
     {| s3_objects := s3_objects world_with_longer_key;
        local_files := local_files world_with_longer_key;
        calls := calls world_with_longer_key
                 ++ [list_objects_v2 1 "results"
                       "out/S2A_30TWM_20210101_0_L2A.json"] |}).
Proof.
  apply (exist_s3_path_iff_object
           "s3://results/out/S2A_30TWM_20210101_0_L2A.json"
           "results" "out/S2A_30TWM_20210101_0_L2A.json"
           world_with_longer_key).
  vm_compute. reflexivity.
Defined.

(** In that world the listing does return a key, the longer one, and the
    answer is [False]. *)
Example exist_s3_path_longer_key :
  listed_keys (s3_objects world_with_longer_key) 1 "results"
              "out/S2A_30TWM_20210101_0_L2A.json"
  = ["out/S2A_30TWM_20210101_0_L2A.json.bak"%string]
  /\ fst (FileUtils.exist_s3_path
            "s3://results/out/S2A_30TWM_20210101_0_L2A.json"
            world_with_longer_key)
     = Ok false.
Proof. split; vm_compute; reflexivity. Qed.

(** ** parse_s3_path *)

Section SplitFacts.

Lemma append_assoc (a b c : string) :
  ((a ++ b) ++ c)%string = (a ++ (b ++ c))%string.
Proof.
  induction a as [|x a IH]; [reflexivity|].
  change (String x ((a ++ b) ++ c)%string = String x (a ++ (b ++ c))%string).
  now rewrite IH.
Qed.

Lemma append_nil_r (a : string) : (a ++ "")%string = a.
Proof.
  induction a as [|x a IH]; [reflexivity|].
  change (String x (a ++ "")%string = String x a). now rewrite IH.
Qed.

Lemma append_char (cur : string) (c : ascii) (s : string) :
  ((cur ++ String c "") ++ s)%string = (cur ++ String c s)%string.
Proof. now rewrite append_assoc. Qed.

(** A string without the separator is one piece. *)
Lemma split_go_absent (sep s cur : string) :
  contains sep s = false ->
  PyStr.split_go sep s 0 cur = [(cur ++ s)%string].
Proof.
  revert cur. induction s as [|c s IH]; intros cur H.
  - cbn [PyStr.split_go]. now rewrite append_nil_r.
  - cbn [contains] in H. apply orb_false_iff in H as [Hp Hs].
    cbn [PyStr.split_go]. rewrite Hp, (IH _ Hs). now rewrite append_char.
Qed.

Lemma prefix_one_char (c d : ascii) (s : string) :
  String.prefix (String c "") (String d s) = Ascii.eqb c d.
Proof.
  cbn [String.prefix]. destruct (ascii_dec c d) as [->|Hne].
  - rewrite Ascii.eqb_refl. now destruct s.
  - symmetry. now apply Ascii.eqb_neq.
Qed.

Lemma prefix_nil (s : string) : String.prefix "" s = true.
Proof. now destruct s. Qed.

Lemma prefix_cons (c d : ascii) (a s : string) :
  String.prefix (String c a) (String d s)
  = Ascii.eqb c d && String.prefix a s.
Proof.
  cbn [String.prefix]. destruct (ascii_dec c d) as [->|Hne].
  - now rewrite Ascii.eqb_refl.
  - apply Ascii.eqb_neq in Hne. now rewrite Hne.
Qed.

(** A string without the character, then the character, then the rest:
    the first piece and the pieces of the rest. *)
Lemma split_go_first (c : ascii) (bucket rest cur : string) :
  has_char c bucket = false ->
  PyStr.split_go (String c "") (bucket ++ String c rest) 0 cur
  = (cur ++ bucket)%string :: PyStr.split_go (String c "") rest 0 "".
Proof.
  revert cur. induction bucket as [|d bucket IH]; intros cur H.
  - change (("" ++ String c rest)%string) with (String c rest).
    cbn [PyStr.split_go]. rewrite prefix_one_char, Ascii.eqb_refl.
    now rewrite append_nil_r.
  - cbn [has_char] in H. apply orb_false_iff in H as [Hcd Hb].
    change ((String d bucket ++ String c rest)%string)
      with (String d (bucket ++ String c rest)%string).
    cbn [PyStr.split_go]. rewrite prefix_one_char, Hcd.
    rewrite (IH _ Hb). now rewrite append_char.
Qed.

Lemma split_go_nonempty (sep s : string) (skip : nat) (cur : string) :
  PyStr.split_go sep s skip cur <> [].
Proof.
  revert skip cur. induction s as [|c s IH]; intros skip cur;
    cbn [PyStr.split_go]; [discriminate|].
  destruct skip; [|apply IH].
  destruct (String.prefix sep (String c s)); [discriminate|apply IH].
Qed.

(** Joining the pieces of a split by a character gives the string back. *)
Lemma join_split_go (c : ascii) (s cur : string) :
  PyStr.join (String c "") (PyStr.split_go (String c "") s 0 cur)
  = (cur ++ s)%string.
Proof.
  unfold PyStr.join. revert cur. induction s as [|d s IH]; intros cur.
  - cbn. now rewrite append_nil_r.
  - cbn [PyStr.split_go]. rewrite prefix_one_char.
    destruct (Ascii.eqb c d) eqn:Hcd.
    + apply Ascii.eqb_eq in Hcd. subst d.
      cbn [String.length Nat.sub].
      pose proof (split_go_nonempty (String c "") s 0 "") as Hne.
      specialize (IH ""%string).
      destruct (PyStr.split_go (String c "") s 0 "") as [|p ps];
        [contradiction|].
      cbn [String.concat]. cbn [String.concat] in IH.
      rewrite IH. reflexivity.
    + rewrite IH. now rewrite append_char.
Qed.

Lemma replace_go_absent (c : ascii) (new s : string) :
  has_char c s = false ->
  PyStr.replace_go (String c "") new s 0 = s.
Proof.
  induction s as [|d s IH]; intros H; [reflexivity|].
  cbn [has_char] in H. apply orb_false_iff in H as [Hcd Hs].
  cbn [PyStr.replace_go]. rewrite prefix_one_char, Hcd. now rewrite IH.
Qed.

Lemma has_char_app (c : ascii) (a b : string) :
  has_char c (a ++ b) = has_char c a || has_char c b.
Proof.
  induction a as [|d a IH]; [reflexivity|].
  change (has_char c (String d (a ++ b)%string)
          = has_char c (String d a) || has_char c b).
  cbn [has_char]. now rewrite IH, orb_assoc.
Qed.

(** No double slash in a bucket without slash followed by a slash and a key
    that has no double slash and does not begin with a slash. *)
Lemma contains_double_slash (bucket key : string) :
  has_char "/" bucket = false ->
  contains "//" key = false ->
  String.prefix "/" key = false ->
  contains "//" (bucket ++ String "/" key) = false.
Proof.
  intros Hb Hk Hp. induction bucket as [|d bucket IH].
  - change (("" ++ String "/" key)%string) with (String "/" key).
    cbn [contains]. rewrite Hk, orb_false_r.
    destruct key as [|e key]; [reflexivity|].
    rewrite prefix_one_char in Hp.
    rewrite !prefix_cons, Hp. reflexivity.
  - cbn [has_char] in Hb. apply orb_false_iff in Hb as [Hd Hb].
    change ((String d bucket ++ String "/" key)%string)
      with (String d (bucket ++ String "/" key)%string).
    cbn [contains]. rewrite (IH Hb), orb_false_r.
    rewrite prefix_cons, Hd. reflexivity.
Qed.

End SplitFacts.

(** The path [s3://bucket/key] parses into the bucket and the key, for a
    bucket without slash or backslash and a key without backslash or double
    slash that does not begin with a slash. *)
Theorem parse_s3_path_of_bucket_and_key (bucket key : string) :
  has_char "/" bucket = false ->
  has_char "\" bucket = false ->
  has_char "\" key = false ->
  contains "//" key = false ->
  String.prefix "/" key = false ->
  FileUtils.parse_s3_path ("s3://" ++ bucket ++ "/" ++ key)
  = Ok (bucket, key).
Proof.
  intros Hb Hbb Hkb Hk Hp. unfold FileUtils.parse_s3_path.
  assert (Hrep : PyStr.replace "\" "/" ("s3://" ++ bucket ++ "/" ++ key)
                 = ("s3://" ++ bucket ++ "/" ++ key)%string).
  { apply replace_go_absent.
    change (("s3://" ++ bucket ++ "/" ++ key)%string)
      with (String "s" (String "3" (String ":" (String "/" (String "/"
              (bucket ++ String "/" key)%string))))).
    cbn [has_char]. rewrite has_char_app. cbn [has_char].
    rewrite Hbb, Hkb. reflexivity. }
  rewrite Hrep.
  assert (Hsplit : PyStr.split "//" ("s3://" ++ bucket ++ "/" ++ key)
                   = ["s3:"%string; (bucket ++ String "/" key)%string]).
  { change (("s3://" ++ bucket ++ "/" ++ key)%string)
      with (String "s" (String "3" (String ":" (String "/" (String "/"
              (bucket ++ String "/" key)%string))))).
    unfold PyStr.split. cbn [PyStr.split_go].
    rewrite !prefix_cons, !prefix_nil.
    change (Ascii.eqb "/" "s") with false.
    change (Ascii.eqb "/" "3") with false.
    change (Ascii.eqb "/" ":") with false.
    change (Ascii.eqb "/" "/") with true.
    cbn [andb].
    cbn [String.length Nat.sub].
    rewrite (split_go_absent "//" _ ""
               (contains_double_slash bucket key Hb Hk Hp)).
    reflexivity. }
  rewrite Hsplit. cbn [PyList.index nth_error rbind].
  unfold PyStr.split.
  rewrite (split_go_first "/" bucket key "" Hb).
  cbn [PyList.index nth_error rbind tl].
  rewrite join_split_go. reflexivity.
Qed.

Lemma parse_s3_path_of_bucket_and_key_witness :
  FileUtils.parse_s3_path
    ("s3://" ++ "results" ++ "/" ++ "out/S2A_30TWM_20210101_0_L2A.json")
  = Ok ("results"%string, "out/S2A_30TWM_20210101_0_L2A.json"%string).
Proof.
  apply (parse_s3_path_of_bucket_and_key
           "results" "out/S2A_30TWM_20210101_0_L2A.json");
    vm_compute; reflexivity.
Defined.

(** The pieces of a split have a second element exactly when the string
    holds the separator. *)
Lemma split_go_second (a : ascii) (b s cur : string) :
  nth_error (PyStr.split_go (String a b) s 0 cur) 1 = None
  <-> contains (String a b) s = false.
Proof.
  revert cur. induction s as [|c s IH]; intros cur.
  - cbn [PyStr.split_go contains nth_error String.prefix]. tauto.
  - cbn [PyStr.split_go contains].
    destruct (String.prefix (String a b) (String c s)) eqn:Hp.
    + cbn [orb nth_error].
      pose proof (split_go_nonempty (String a b) s
                    (String.length (String a b) - 1) "") as Hne.
      destruct (PyStr.split_go (String a b) s
                  (String.length (String a b) - 1) "");
        [contradiction|].
      cbn [nth_error]. split; discriminate.
    + cbn [orb]. apply IH.
Qed.

(** [parse_s3_path] raises [IndexError] exactly for a path without double
    slash once its backslashes are slashes, and returns a pair for every
    other path. *)
Theorem parse_s3_path_raises_iff (s3_path : string) :
  (FileUtils.parse_s3_path s3_path = Raise IndexError
   <-> contains "//" (PyStr.replace "\" "/" s3_path) = false)
  /\ ((exists bucket_name prefix_path,
         FileUtils.parse_s3_path s3_path = Ok (bucket_name, prefix_path))
      <-> contains "//" (PyStr.replace "\" "/" s3_path) = true).
Proof.
  unfold FileUtils.parse_s3_path, PyList.index, PyStr.split.
  pose proof (split_go_second "/" "/" (PyStr.replace "\" "/" s3_path) "")
    as Hsecond.
  destruct (nth_error
              (PyStr.split_go "//" (PyStr.replace "\" "/" s3_path) 0 "") 1)
    as [rest|] eqn:Hn.
  - cbn [rbind].
    pose proof (split_go_nonempty "/" rest 0 "") as Hne.
    destruct (PyStr.split_go "/" rest 0 "") as [|p ps] eqn:Hs;
      [contradiction|].
    cbn [nth_error rbind tl].
    destruct (contains "//" (PyStr.replace "\" "/" s3_path)).
    + split; split; try discriminate; eauto.
    + destruct Hsecond as [_ H]. specialize (H eq_refl). discriminate.
  - cbn [rbind]. rewrite (proj1 Hsecond eq_refl).
    split; split; try reflexivity; try discriminate.
    intros (b & k & H). discriminate.
Qed.

(** ** print_statistics *)

Section PrintStatistics.

Lemma array_size_concat (a : Raster) :
  array_size a = Z.of_nat (length (concat a)).
Proof.
  induction a as [|row a IH]; cbn [array_size fold_right concat];
    [reflexivity|].
  fold (array_size a). rewrite length_app, IH. lia.
Qed.

Lemma occurrences_app (v : Z) (l k : list Z) :
  occurrences v (l ++ k) = (occurrences v l + occurrences v k)%Z.
Proof.
  unfold occurrences. induction l as [|x l IH]; cbn [app map fold_right];
    [lia|].
  rewrite IH. destruct (x =? v)%Z; lia.
Qed.

Lemma count_eq_scalar (a : Raster) (v : Z) :
  Np.count_nonzero (Np.eq_scalar a v) = occurrences v (concat a).
Proof.
  unfold Np.eq_scalar.
  induction a as [|row a IH]; cbn [map Np.count_nonzero fold_right concat];
    [reflexivity|].
  fold (Np.count_nonzero (map (map (fun x => (x =? v)%Z)) a)).
  rewrite IH, occurrences_app. reflexivity.
Qed.

Lemma occurrences_cons (v x : Z) (l : list Z) :
  occurrences v (x :: l)
  = ((if (x =? v)%Z then 1 else 0) + occurrences v l)%Z.
Proof.
  unfold occurrences. cbn [map fold_right]. destruct (x =? v)%Z; lia.
Qed.

Lemma occurrences_nonneg (v : Z) (l : list Z) : (0 <= occurrences v l)%Z.
Proof.
  induction l as [|x l IH]; [cbn; lia|].
  rewrite occurrences_cons. destruct (x =? v)%Z; lia.
Qed.

Lemma occurrences_positive (v : Z) (l : list Z) :
  In v l -> (0 < occurrences v l)%Z.
Proof.
  induction l as [|x l IH]; intros Hin; [destruct Hin|].
  rewrite occurrences_cons. pose proof (occurrences_nonneg v l).
  destruct Hin as [->|Hin].
  - rewrite Z.eqb_refl. lia.
  - specialize (IH Hin). destruct (x =? v)%Z; lia.
Qed.

Lemma in_insert_unique (x v : Z) (l : list Z) :
  In x (insert_unique v l) <-> x = v \/ In x l.
Proof.
  induction l as [|y l IH]; cbn [insert_unique In];
    [intuition congruence|].
  destruct (v <? y)%Z eqn:Hlt; [cbn [In]; intuition congruence|].
  destruct (v =? y)%Z eqn:Heq.
  - apply Z.eqb_eq in Heq. subst y. cbn [In]. intuition congruence.
  - cbn [In]. rewrite IH. intuition congruence.
Qed.

Lemma increasing_tail (x : Z) (l : list Z) :
  increasing (x :: l) -> increasing l.
Proof. destruct l; cbn [increasing]; tauto. Qed.

Lemma increasing_cons (x : Z) (l : list Z) :
  increasing l -> (forall y, In y l -> (x < y)%Z) -> increasing (x :: l).
Proof.
  destruct l as [|y l]; cbn [increasing]; [tauto|].
  intros H Hall. split; [apply Hall; now left|exact H].
Qed.

Lemma increasing_head (x : Z) (l : list Z) :
  increasing (x :: l) -> forall y, In y l -> (x < y)%Z.
Proof.
  revert x. induction l as [|z l IH]; intros x H y Hin; [destruct Hin|].
  cbn [increasing] in H. destruct H as [Hxz H].
  destruct Hin as [->|Hin]; [exact Hxz|].
  specialize (IH z H y Hin). lia.
Qed.

Lemma insert_unique_increasing (v : Z) (l : list Z) :
  increasing l -> increasing (insert_unique v l).
Proof.
  induction l as [|y l IH]; intros H; cbn [insert_unique];
    [exact I|].
  destruct (v <? y)%Z eqn:Hlt.
  - apply Z.ltb_lt in Hlt. cbn [increasing]. split; [exact Hlt|exact H].
  - destruct (v =? y)%Z eqn:Heq; [exact H|].
    apply Z.ltb_ge in Hlt. apply Z.eqb_neq in Heq.
    apply increasing_cons.
    + apply IH. now apply increasing_tail in H.
    + intros z Hz. apply in_insert_unique in Hz as [->|Hz]; [lia|].
      now apply (increasing_head y l).
Qed.

Lemma in_unique (l : list Z) (x : Z) :
  In x (fold_right insert_unique [] l) <-> In x l.
Proof.
  induction l as [|y l IH]; cbn [fold_right In]; [tauto|].
  rewrite in_insert_unique, IH. intuition congruence.
Qed.

Lemma unique_increasing (l : list Z) :
  increasing (fold_right insert_unique [] l).
Proof.
  induction l as [|y l IH]; cbn [fold_right]; [exact I|].
  now apply insert_unique_increasing.
Qed.

(** A value is counted once in a list in increasing order that holds it. *)
Lemma total_indicator_absent (x : Z) (u : list Z) :
  ~ In x u ->
  total (map (fun v => if (x =? v)%Z then 1 else 0)%Z u) = 0%Z.
Proof.
  induction u as [|y u IH]; intros Hn; [reflexivity|].
  cbn [map total fold_right]. fold (total (map
    (fun v => if (x =? v)%Z then 1 else 0)%Z u)).
  rewrite IH by (intros H; apply Hn; now right).
  destruct (x =? y)%Z eqn:E; [|lia].
  apply Z.eqb_eq in E. subst y. exfalso. apply Hn. now left.
Qed.

Lemma total_indicator_present (x : Z) (u : list Z) :
  increasing u -> In x u ->
  total (map (fun v => if (x =? v)%Z then 1 else 0)%Z u) = 1%Z.
Proof.
  induction u as [|y u IH]; intros Hinc Hin; [destruct Hin|].
  cbn [map total fold_right]. fold (total (map
    (fun v => if (x =? v)%Z then 1 else 0)%Z u)).
  pose proof (increasing_head y u Hinc) as Hhead.
  destruct (x =? y)%Z eqn:E.
  - apply Z.eqb_eq in E. subst y.
    rewrite total_indicator_absent; [lia|].
    intros H. specialize (Hhead x H). lia.
  - apply Z.eqb_neq in E. destruct Hin as [->|Hin]; [contradiction|].
    rewrite IH; [lia| |exact Hin]. now apply increasing_tail in Hinc.
Qed.

Lemma total_add (f g : Z -> Z) (u : list Z) :
  total (map (fun v => f v + g v)%Z u)
  = (total (map f u) + total (map g u))%Z.
Proof.
  induction u as [|y u IH]; [reflexivity|].
  cbn [map total fold_right]. fold (total (map f u)).
  fold (total (map g u)). fold (total (map (fun v => f v + g v)%Z u)).
  lia.
Qed.

(** The counts of the distinct values add up to the number of cells. *)
Lemma total_occurrences (u l : list Z) :
  increasing u -> (forall x, In x l -> In x u) ->
  total (map (fun v => occurrences v l) u) = Z.of_nat (length l).
Proof.
  intros Hinc. induction l as [|x l IH]; intros Hall.
  - cbn [length]. induction u as [|y u IHu]; [reflexivity|].
    cbn [map total fold_right]. fold (total (map
      (fun v => occurrences v []) u)).
    rewrite IHu by (now apply increasing_tail in Hinc). reflexivity.
  - rewrite (map_ext _ (fun v => (if (x =? v)%Z then 1 else 0)
                                 + occurrences v l)%Z)
      by (intros v; apply occurrences_cons).
    rewrite total_add, IH by (intros y Hy; apply Hall; now right).
    rewrite total_indicator_present;
      [cbn [length]; lia|exact Hinc|apply Hall; now left].
Qed.

Lemma fold_min_spec (l : list Z) (v : Z) :
  In (fold_left Z.min l v) (v :: l)
  /\ forall x, In x (v :: l) -> (fold_left Z.min l v <= x)%Z.
Proof.
  revert v. induction l as [|y l IH]; intros v; cbn [fold_left].
  - split; [now left|]. intros x [->|[]]. lia.
  - destruct (IH (Z.min v y)) as [Hin Hle]. split.
    + destruct Hin as [Hin|Hin]; [|right; now right].
      rewrite <- Hin. destruct (Z.min_spec v y) as [[_ ->]|[_ ->]];
        [now left|right; now left].
    + intros x Hx. assert (Hm : (fold_left Z.min l (Z.min v y)
                                 <= Z.min v y)%Z) by (apply Hle; now left).
      destruct Hx as [->|[->|Hx]]; [lia|lia|].
      apply Hle. now right.
Qed.

Lemma fold_max_spec (l : list Z) (v : Z) :
  In (fold_left Z.max l v) (v :: l)
  /\ forall x, In x (v :: l) -> (x <= fold_left Z.max l v)%Z.
Proof.
  revert v. induction l as [|y l IH]; intros v; cbn [fold_left].
  - split; [now left|]. intros x [->|[]]. lia.
  - destruct (IH (Z.max v y)) as [Hin Hle]. split.
    + destruct Hin as [Hin|Hin]; [|right; now right].
      rewrite <- Hin. destruct (Z.max_spec v y) as [[_ ->]|[_ ->]];
        [right; now left|now left].
    + intros x Hx. assert (Hm : (Z.max v y
                                 <= fold_left Z.max l (Z.max v y))%Z)
        by (apply Hle; now left).
      destruct Hx as [->|[->|Hx]]; [lia|lia|].
      apply Hle. now right.
Qed.

(** The first of a list in increasing order is its least value, the last
    its greatest. *)
Lemma increasing_first (u : list Z) (m : Z) :
  increasing u -> In m u -> (forall x, In x u -> (m <= x)%Z) ->
  hd_error u = Some m.
Proof.
  destruct u as [|y u]; intros Hinc Hin Hle; [destruct Hin|].
  cbn [hd_error]. f_equal.
  destruct Hin as [->|Hin]; [reflexivity|].
  pose proof (increasing_head y u Hinc m Hin).
  specialize (Hle y (or_introl eq_refl)). lia.
Qed.

Lemma increasing_last (u : list Z) (m : Z) :
  increasing u -> In m u -> (forall x, In x u -> (x <= m)%Z) ->
  last u = Some m.
Proof.
  induction u as [|y u IH]; intros Hinc Hin Hle; [destruct Hin|].
  destruct u as [|z u].
  - destruct Hin as [->|[]]. reflexivity.
  - change (last (y :: z :: u)) with (last (z :: u)).
    apply IH.
    + now apply increasing_tail in Hinc.
    + destruct Hin as [->|Hin]; [|exact Hin].
      pose proof (increasing_head m (z :: u) Hinc z (or_introl eq_refl)).
      specialize (Hle z (or_intror (or_introl eq_refl))). lia.
    + intros x Hx. apply Hle. now right.
Qed.

Lemma comprehension_ok {A B} (f : A -> result B) (g : A -> B)
  (l : list A) :
  (forall x, f x = Ok (g x)) -> comprehension f l = Ok (map g l).
Proof.
  intros Hf. induction l as [|x l IH]; [reflexivity|].
  cbn [comprehension map]. rewrite Hf, IH. reflexivity.
Qed.

End PrintStatistics.

(** [print_statistics] raises [ValueError], and nothing else, exactly on an
    array without cells.  On every other array the distinct values it
    reports are those of the cells in increasing order, each with a
    positive count, the counts add up to the size of the array, and the
    minimum and the maximum are the first and the last distinct value. *)
Theorem print_statistics_line (label : string) (array : Raster) :
  match print_statistics label array with
  | Ok line =>
      array_size array <> 0%Z
      /\ increasing (stat_unique line)
      /\ (forall v, In v (stat_unique line)
                    <-> exists row, In row array /\ In v row)
      /\ length (stat_count line) = length (stat_unique line)
      /\ Forall (fun c => (0 < c)%Z) (stat_count line)
      /\ total (stat_count line) = stat_size line
      /\ stat_size line = array_size array
      /\ hd_error (stat_unique line) = Some (stat_min line)
      /\ last (stat_unique line) = Some (stat_max line)
  | Raise e => e = ValueError /\ array_size array = 0%Z
  end.
Proof.
  unfold print_statistics, np_min, np_max, np_unique.
  rewrite (array_size_concat array).
  destruct (concat array) as [|v l] eqn:Hcells.
  - cbn. split; reflexivity.
  - rewrite (comprehension_ok _
               (fun c => 100 * (inject_Z c
                                / inject_Z (Z.of_nat (length (v :: l)))))).
    2:{ intros c. rewrite div_ok; [reflexivity|].
        intros H. apply (proj1 (inject_Z_zero _)) in H.
        cbn [length] in H. lia. }
    cbn [rbind stat_unique stat_count stat_size stat_min stat_max].
    pose proof (unique_increasing (v :: l)) as Hinc.
    pose proof (in_unique (v :: l)) as Hin.
    destruct (fold_min_spec l v) as [Hmin_in Hmin_le].
    destruct (fold_max_spec l v) as [Hmax_in Hmax_le].
    repeat split.
    + cbn [length]. lia.
    + exact Hinc.
    + intros H. apply Hin in H. rewrite <- Hcells in H.
      apply in_concat in H as (row & Hrow & Hv). eauto.
    + intros (row & Hrow & Hv). apply Hin. rewrite <- Hcells.
      apply in_concat. eauto.
    + now rewrite length_map.
    + apply List.Forall_forall. intros c Hc.
      apply in_map_iff in Hc as (u & <- & Hu).
      rewrite count_eq_scalar, Hcells.
      apply occurrences_positive. now apply Hin.
    + rewrite (map_ext _ (fun u => occurrences u (v :: l)))
        by (intros u; now rewrite count_eq_scalar, Hcells).
      apply total_occurrences; [exact Hinc|].
      intros x Hx. now apply Hin.
    + apply increasing_first; [exact Hinc|now apply Hin|].
      intros x Hx. apply Hmin_le. now apply Hin.
    + apply increasing_last; [exact Hinc|now apply Hin|].
      intros x Hx. apply Hmax_le. now apply Hin.
Qed.

(** ** The envelope and the pixels of a dataset *)

(** For a geotransform without rotation terms the envelope that
    [get_envelope] returns holds the corners of every pixel of the raster,
    whatever the signs of the pixel sizes. *)
Theorem get_envelope_holds_pixels (dataset : Dataset) (col row : Z) :
  north_up dataset ->
  (0 <= col <= RasterXSize dataset)%Z ->
  (0 <= row <= RasterYSize dataset)%Z ->
  in_envelope (pixel_corner dataset col row) (get_envelope dataset).
Proof.
  unfold north_up, pixel_corner, get_envelope, in_envelope.
  destruct (GeoTransform dataset) as [[[[[c a] b] f] d] e].
  intros [Hb Hd] [Hc0 Hc1] [Hr0 Hr1].
  cbn [fst snd]. rewrite !Z.add_0_r. change (inject_Z 0) with 0.
  assert (Hcol0 : 0 <= inject_Z col)
    by (change 0 with (inject_Z 0); now rewrite <- Zle_Qle).
  assert (Hrow0 : 0 <= inject_Z row)
    by (change 0 with (inject_Z 0); now rewrite <- Zle_Qle).
  assert (Hcol1 : inject_Z col <= inject_Z (RasterXSize dataset))
    by now rewrite <- Zle_Qle.
  assert (Hrow1 : inject_Z row <= inject_Z (RasterYSize dataset))
    by now rewrite <- Zle_Qle.
  set (W := inject_Z (RasterXSize dataset)) in *.
  set (H := inject_Z (RasterYSize dataset)) in *.
  set (x := inject_Z col) in *. set (y := inject_Z row) in *.
  assert (Hbx : b * y == 0) by (rewrite Hb; ring).
  assert (HbH : b * H == 0) by (rewrite Hb; ring).
  assert (Hdx : d * x == 0) by (rewrite Hd; ring).
  assert (HdW : d * W == 0) by (rewrite Hd; ring).
  assert (Hax : (0 <= a /\ 0 <= a * x <= a * W)
                \/ (a <= 0 /\ a * W <= a * x <= 0)).
  { destruct (Qlt_le_dec a 0); [right|left]; nra. }
  assert (Hey : (0 <= e /\ 0 <= e * y <= e * H)
                \/ (e <= 0 /\ e * H <= e * y <= 0)).
  { destruct (Qlt_le_dec e 0); [right|left]; nra. }
  repeat split; min_max_cases; lra.
Qed.

Lemma get_envelope_holds_pixels_witness :
  in_envelope (pixel_corner Scene.cm_dataset 2 3)
              (get_envelope Scene.cm_dataset).
Proof.
  apply (get_envelope_holds_pixels Scene.cm_dataset 2 3).
  - split; reflexivity.
  - vm_compute. split; discriminate.
  - vm_compute. split; discriminate.
Defined.

(** With rotation terms the envelope of the two corners can miss pixels of
    the raster: the corner of pixel [(2, 0)] of the turned raster lies at
    [x = 2], and the envelope ends at [x = 0]. *)
Example get_envelope_misses_turned_pixel :
  get_envelope turned_dataset = (0, 0, 0, 4)
  /\ pixel_corner turned_dataset 2 0 = (2, 2)
  /\ ~ in_envelope (pixel_corner turned_dataset 2 0)
                   (get_envelope turned_dataset).
Proof.
  split; [vm_compute; reflexivity|]. split; [vm_compute; reflexivity|].
  vm_compute. intros [[_ H] _]. apply H. reflexivity.
Qed.

(** ** The item the handler stores *)

(** One step of a run that went well, keeping what the step computed. *)
Ltac lifted_step_with H :=
  let Hs := fresh "Hs" in
  let Hv := fresh "Hv" in
  apply bind_ok in H as (? & ? & Hs & H);
  lazymatch type of Hs with lift _ _ = _ => idtac end;
  apply lift_ok in Hs as [Hv ->];
  repeat match type of H with
         | context [match ?x with (_, _) => _ end] => is_var x; destruct x
         end.

(** When the handler returns the response of a processed item, the object
    under the path of the item in the output folder is the item of the event
    with a [land_use] added: identifier, properties, geometry and assets are
    those of the event; there is at least one urban pixel, the valid urban
    pixels are no more than the urban pixels, and the cover lies between 0
    and 100.  The same item is in the local file [/tmp/<id>.json]. *)
Theorem stored_item_is_event_with_land_use
  (gdal : Gdal) (environ : gmap string string) (event : StacItem)
  (w w' : World) :
  lambda_handler gdal environ event w = (Ok ok_response, w') ->
  exists output_folder bucket_name prefix_path item land_use,
    environ !! "OUTPUT_S3_FOLDER"%string = Some output_folder
    /\ FileUtils.parse_s3_path
         (PyStr.path_join output_folder (msg_id event ++ ".json"))
       = Ok (bucket_name, prefix_path)
    /\ s3_objects w' !! (bucket_name, prefix_path) = Some item
    /\ local_files w' !! ("/tmp/" ++ msg_id event ++ ".json")%string
       = Some item
    /\ msg_id item = msg_id event
    /\ msg_properties item = msg_properties event
    /\ msg_geometry item = msg_geometry event
    /\ msg_assets item = msg_assets event
    /\ msg_land_use item = Some land_use
    /\ sound_land_use land_use.
Proof.
  intros Hrun. unfold lambda_handler in Hrun.
  apply bind_ok in Hrun as (inputs & w0 & Hopen & Hrun).
  apply lift_ok in Hopen as [Hopen ->].
  destruct (open_inputs_ok _ _ _ _ Hopen) as (Hfolder & Hmsg).
  unfold process_inputs in Hrun. rewrite Hmsg in Hrun.
  destruct (get_envelope (in_cm_dataset inputs))
    as [[[cm0 cm1] cm2] cm3] eqn:Hcm.
  destruct (negb _); [discriminate Hrun|].
  apply bind_ok in Hrun as ([[[aoi0 aoi1] aoi2] aoi3] & w1 & Hres & Hrun).
  repeat lifted_step_with Hrun.
  apply bind_ok in Hrun as ([] & w2 & Hwrite & Hrun).
  apply bind_ok in Hrun as ([bucket_name prefix_path] & w3 & Hparse & Hrun).
  apply lift_ok in Hparse as [Hparse ->].
  apply bind_ok in Hrun as ([] & w4 & Hupload & Hrun).
  inversion Hrun; subst w4; clear Hrun.
  match goal with
  | Hstat : urban_statistics _ _ = Ok _ |- _ =>
      pose proof (urban_statistics_counts _ _ _ _ _ Hstat)
        as (Hvalid & [Hurban _] & Hcover)
  end.
  eexists (in_output_folder inputs), bucket_name, prefix_path, _, _.
  split; [exact Hfolder|]. split; [exact Hparse|].
  split; [exact (write_then_upload _ _ _ _ _ _ _ Hwrite Hupload)|].
  split.
  { unfold write_json in Hwrite. inversion Hwrite; subst w2; clear Hwrite.
    unfold s3_upload_file in Hupload. cbn [local_files] in Hupload.
    rewrite lookup_insert_eq in Hupload.
    inversion Hupload; subst w'; clear Hupload.
    cbn [local_files]. apply lookup_insert_eq. }
  cbn [msg_id msg_properties msg_geometry msg_assets msg_land_use].
  unfold sound_land_use.
  cbn [valid_urban_pixels urban_pixels urban_cover].
  destruct Hvalid, Hcover.
  repeat split; try reflexivity; assumption.
Qed.

Lemma stored_item_is_event_with_land_use_witness :
  exists output_folder bucket_name prefix_path item land_use,
    Scene.environ !! "OUTPUT_S3_FOLDER"%string = Some output_folder
    /\ FileUtils.parse_s3_path
         (PyStr.path_join output_folder (msg_id Scene.event ++ ".json"))
       = Ok (bucket_name, prefix_path)
    /\ s3_objects
         (snd (lambda_handler Scene.gdal Scene.environ Scene.event
                 Scene.empty_world))
       !! (bucket_name, prefix_path) = Some item
    /\ local_files
         (snd (lambda_handler Scene.gdal Scene.environ Scene.event
                 Scene.empty_world))
       !! ("/tmp/" ++ msg_id Scene.event ++ ".json")%string
       = Some item
    /\ msg_id item = msg_id Scene.event
    /\ msg_properties item = msg_properties Scene.event
    /\ msg_geometry item = msg_geometry Scene.event
    /\ msg_assets item = msg_assets Scene.event
    /\ msg_land_use item = Some land_use
    /\ sound_land_use land_use.
Proof.
  apply (stored_item_is_event_with_land_use
           Scene.gdal Scene.environ Scene.event Scene.empty_world).
  vm_compute. reflexivity.
Defined.
